(** * Verification of the subtitle OCR worker (ocr_worker.py)

    A shallow embedding of the caption-assembly pipeline of
    [ocr_worker.py]: the timestamp formatter, the language resolver, the
    caption assembler and the job pipeline, with the properties of the
    design document proved about them.

    Conventions of the embedding:
    - a Python [str] is a [string]; each [ascii] stands for one code point
      below 256 (Latin-1), and the classification of characters
      ([isspace], [lower], line boundaries) is CPython's on that range;
    - a Python [float] is a binary64 [spec_float] with the IEEE operations
      of the standard library's [SpecFloat];
    - a Python [int] is a [Z];
    - an exception is a value of [exn], a computation that may raise
      returns a [result];
    - everything the worker does to the outside world (printing, running a
      subprocess, asking the file system) goes through the monad [M]; it
      is answered by an [os] oracle and recorded in a trace of [effect]s. *)

From Stdlib Require Import ZArith Lia Bool Ascii String List.
From Stdlib Require Import DecimalString DecimalPos.
From Stdlib Require Import Floats.SpecFloat.
From stdpp Require Import base option list strings gmap sorting.

Local Open Scope Z_scope.

(** ** Exceptions and results *)

Inductive exn : Type :=
| JobError (msg : string)
| CalledProcessError (cmd : list string) (err : string)
| FileNotFoundError
| ValueError
| OverflowError
| OSError.

Inductive result (A : Type) : Type :=
| Ok (a : A)
| Raise (e : exn).

Arguments Ok {A} a.
Arguments Raise {A} e.

Definition result_bind {A B} (r : result A) (k : A -> result B) : result B :=
  match r with
  | Ok a => k a
  | Raise e => Raise e
  end.

(** ** The Python runtime the worker relies on *)

Module Py.

(** [str.isspace] on one code point below 256. *)
Definition isspace (c : ascii) : bool :=
  let n := Z.of_N (N_of_ascii c) in
  ((9 <=? n) && (n <=? 13)) || ((28 <=? n) && (n <=? 32))
  || (n =? 133) || (n =? 160).

(** [str.lower] on one code point below 256: A-Z and the Latin-1 capitals
    (all of 192..222 but the multiplication sign 215) move up by 32. *)
Definition lower_char (c : ascii) : ascii :=
  let n := Z.of_N (N_of_ascii c) in
  if ((65 <=? n) && (n <=? 90))
     || ((192 <=? n) && (n <=? 222) && negb (n =? 215))
  then ascii_of_N (Z.to_N (n + 32)) else c.

Fixpoint lower (s : string) : string :=
  match s with
  | EmptyString => EmptyString
  | String c r => String (lower_char c) (lower r)
  end.

Fixpoint lstrip (s : string) : string :=
  match s with
  | EmptyString => EmptyString
  | String c r => if isspace c then lstrip r else s
  end.

Fixpoint rstrip (s : string) : string :=
  match s with
  | EmptyString => EmptyString
  | String c r =>
      match rstrip r with
      | EmptyString => if isspace c then EmptyString else String c EmptyString
      | r' => String c r'
      end
  end.

(** [s.strip()]: whitespace removed at both ends. *)
Definition strip (s : string) : string := rstrip (lstrip s).

(** [s.split()]: the maximal runs of non-whitespace characters.  [cur] is
    the run being read. *)
Fixpoint split_aux (cur : string) (s : string) : list string :=
  match s with
  | EmptyString => if String.eqb cur "" then [] else [cur]
  | String c r =>
      if isspace c
      then (if String.eqb cur "" then split_aux "" r else cur :: split_aux "" r)
      else split_aux (cur +:+ String c "") r
  end.

Definition split (s : string) : list string := split_aux "" s.

(** [sep.join(parts)]. *)
Fixpoint join (sep : string) (parts : list string) : string :=
  match parts with
  | [] => ""
  | [p] => p
  | p :: rest => p +:+ sep +:+ join sep rest
  end.

(** Line boundaries of [str.splitlines] below 256. *)
Definition islinebreak (c : ascii) : bool :=
  let n := Z.of_N (N_of_ascii c) in
  ((10 <=? n) && (n <=? 13)) || ((28 <=? n) && (n <=? 30)) || (n =? 133).

(** [s.splitlines()]: a carriage return followed by a line feed is one
    boundary; no empty last line after a final boundary. *)
Fixpoint splitlines_aux (cur : string) (s : string) : list string :=
  match s with
  | EmptyString => if String.eqb cur "" then [] else [cur]
  | String c r =>
      if islinebreak c then
        match r with
        | String c' r' =>
            if (Ascii.eqb c "013") && (Ascii.eqb c' "010")
            then cur :: splitlines_aux "" r'
            else cur :: splitlines_aux "" r
        | EmptyString => [cur]
        end
      else splitlines_aux (cur +:+ String c "") r
  end.

Definition splitlines (s : string) : list string := splitlines_aux "" s.

(** [str(n)] for an int. *)
Definition str (n : Z) : string := NilZero.string_of_int (Z.to_int n).

Fixpoint zeros (n : nat) : string :=
  match n with
  | O => ""
  | S k => String "0" (zeros k)
  end.

(** [f"{n:0w}"]: sign first, then zeros up to the width [w], then the
    digits; never truncated. *)
Definition format_zero (w : nat) (n : Z) : string :=
  let digits := str (Z.abs n) in
  let sign := if n <? 0 then "-" else "" in
  sign +:+ zeros (w - String.length sign - String.length digits) +:+ digits.

(** *** Floats *)

Definition prec : Z := 53.
Definition emax : Z := 1024.

Definition float_mul : spec_float -> spec_float -> spec_float := SFmul prec emax.
Definition float_add : spec_float -> spec_float -> spec_float := SFadd prec emax.
Definition float_lt : spec_float -> spec_float -> bool := SFltb.

(** [float(z)] for an int [z], and the dyadic [m * 2^e] rounded to a float. *)
Definition dyadic (m e : Z) : spec_float := binary_normalize prec emax m e false.
Definition float_of_Z (z : Z) : spec_float := dyadic z 0.

(** The integer nearest to [m * 2^e], ties to the even one ([m] positive). *)
Definition round_half_even (m e : Z) : Z :=
  if 0 <=? e then m * 2 ^ e
  else
    let d := 2 ^ (- e) in
    let q := m / d in
    match 2 * (m mod d) ?= d with
    | Lt => q
    | Gt => q + 1
    | Eq => if Z.even q then q else q + 1
    end.

(** [int(round(x))] for a float [x]: [round] raises on NaN and on the
    infinities and returns the nearest int otherwise, ties to even. *)
Definition round (x : spec_float) : result Z :=
  match x with
  | S754_nan => Raise ValueError
  | S754_infinity _ => Raise OverflowError
  | S754_zero _ => Ok 0
  | S754_finite s m e => Ok (cond_Zopp s (round_half_even (Zpos m) e))
  end.

End Py.

(** ** ocr_worker.py: constants and data *)

Definition DEFAULT_LANG : string := "eng".

(** A Python set of which only membership is asked. *)
Definition SUPPORTED_TYPES : list string := ["vobsub"; "pgs"].

Record FrameInfo : Type := mkFrameInfo {
  start : spec_float;
  end_ : spec_float
}.

(** ** seconds_to_srt_time *)

(** The int [value * 1000] is rounded to, after the clamp: a negative
    [value] is replaced by the int 0, whose product and rounding are 0. *)
Definition total_millis (value : spec_float) : result Z :=
  if Py.float_lt value (Py.float_of_Z 0) then Ok 0
  else Py.round (Py.float_mul value (Py.float_of_Z 1000)).

Definition srt_fields (millis : Z) : string :=
  let hours := millis / 3600000 in
  let millis := millis - hours * 3600000 in
  let minutes := millis / 60000 in
  let millis := millis - minutes * 60000 in
  let seconds := millis / 1000 in
  let millis := millis - seconds * 1000 in
  Py.format_zero 2 hours +:+ ":" +:+ Py.format_zero 2 minutes +:+ ":"
  +:+ Py.format_zero 2 seconds +:+ "," +:+ Py.format_zero 3 millis.

Definition seconds_to_srt_time (value : spec_float) : result string :=
  result_bind (total_millis value) (fun millis => Ok (srt_fields millis)).

(** ** normalize_language *)

Definition aliases : gmap string string :=
  list_to_map
    [("en", "eng"); ("english", "eng"); ("ja", "jpn"); ("jp", "jpn");
     ("japanese", "jpn"); ("und", DEFAULT_LANG)].

(** [lang] is [None] for Python's [None]; [not lang] also holds of the
    empty string. *)
Definition normalize_language (lang : option string) : string :=
  match lang with
  | None => DEFAULT_LANG
  | Some l =>
      if String.eqb l "" then DEFAULT_LANG
      else
        let l := Py.strip (Py.lower l) in
        default l (aliases !! l)
  end.

(** ** The outside world *)

(** What the worker asks of its environment, in the order it asks. *)
Inductive effect : Type :=
| EPrint (line : string)
| ERun (cmd : list string)
| EIsFile (path : string)
| EIsDir (path : string)
| EAccess (path : string) (writing : bool)
| EMkdtemp (prefix : string)
| EMakedirs (path : string)
| EListdir (path : string)
| EWrite (path : string) (content : string)
| EGetsize (path : string)
| ECleanup (path : string).

Definition trace : Type := list effect.

(** One decoded frame of the ffprobe report: the two keys after [float],
    [None] for a key that is absent. *)
Record raw_frame : Type := mkRawFrame {
  pkt_pts_time : option spec_float;
  pkt_duration_time : option spec_float
}.

(** The answers of the environment; each may depend on what was done
    before.  [os_run] is [subprocess.run] with [check=True],
    [text=True] and captured output: the standard output of a command
    that exits with 0, [CalledProcessError] for another exit status,
    [FileNotFoundError] for a missing program.  [json_frames] is
    [json.loads] followed by the [float] conversions of [load_frames]. *)
Record os : Type := mkOs {
  os_run : trace -> list string -> result string;
  os_isfile : trace -> string -> bool;
  os_isdir : trace -> string -> bool;
  os_access : trace -> string -> bool -> bool;
  os_mkdtemp : trace -> string -> result string;
  os_makedirs : trace -> string -> result unit;
  os_listdir : trace -> string -> result (list string);
  os_write : trace -> string -> string -> result unit;
  os_getsize : trace -> string -> result Z;
  json_frames : string -> result (list raw_frame)
}.

(** State and exception monad over the trace. *)
Definition M (A : Type) : Type := trace -> result A * trace.

Definition ret {A} (a : A) : M A := fun t => (Ok a, t).
Definition raise {A} (e : exn) : M A := fun t => (Raise e, t).
Definition bind {A B} (m : M A) (k : A -> M B) : M B :=
  fun t =>
    match m t with
    | (Ok a, t') => k a t'
    | (Raise e, t') => (Raise e, t')
    end.

(** The effect [e] is answered from the history before it and recorded. *)
Definition perform {A} (e : effect) (answer : trace -> result A) : M A :=
  fun t => (answer t, t ++ [e]).

(** [try: m except <handled>: h]. *)
Definition catch {A} (m : M A) (h : exn -> option (M A)) : M A :=
  fun t =>
    match m t with
    | (Ok a, t') => (Ok a, t')
    | (Raise e, t') =>
        match h e with
        | Some k => k t'
        | None => (Raise e, t')
        end
    end.

Declare Scope monad_scope.
Delimit Scope monad_scope with monad.
Notation "x <- m ;; k" := (bind m (fun x => k))
  (at level 100, m at next level, right associativity) : monad_scope.
Notation "m ;; k" := (bind m (fun _ => k))
  (at level 100, right associativity) : monad_scope.
Local Open Scope monad_scope.

Definition lift {A} (r : result A) : M A := fun t => (r, t).

Section Worker.

Variable w : os.

Definition log (message : string) : M unit :=
  perform (EPrint message) (fun _ => Ok tt).

Definition run_command (cmd : list string) : M string :=
  log ("[cmd] " +:+ Py.join " " cmd) ;;
  perform (ERun cmd) (fun t => os_run w t cmd).

(** ** list_tesseract_languages, resolve_language *)

Definition nonblank (line : string) : bool :=
  negb (String.eqb (Py.strip line) "").

Definition list_tesseract_languages : M (list string) :=
  out <- catch (run_command ["tesseract"; "--list-langs"])
           (fun e => match e with
                     | FileNotFoundError =>
                         Some (raise (JobError "tesseract not found in PATH"))
                     | _ => None
                     end) ;;
  let lines := Py.splitlines (Py.strip out) in
  match lines with
  | [] => ret []
  | _ :: rest => ret (map Py.strip (filter (fun line => nonblank line = true) rest))
  end.

Definition member (x : string) (l : list string) : bool :=
  existsb (String.eqb x) l.

Definition resolve_language (requested : option string)
  : M (string * list string) :=
  let normalized := normalize_language requested in
  available <- list_tesseract_languages ;;
  if member normalized available then ret (normalized, available)
  else
    log ("[warn] Requested language '" +:+ normalized
         +:+ "' not installed. Falling back to '" +:+ DEFAULT_LANG +:+ "'.") ;;
    if negb (member DEFAULT_LANG available)
    then raise (JobError "tesseract language data missing (eng not installed)")
    else ret (DEFAULT_LANG, available).

(** ** Paths: os.path.dirname, os.path.splitext, os.path.join (POSIX) *)

Fixpoint all_chars (c : ascii) (s : string) : bool :=
  match s with
  | EmptyString => true
  | String a r => Ascii.eqb a c && all_chars c r
  end.

(** [p[:p.rfind("/") + 1]]. *)
Fixpoint upto_last_sep (p : string) : string :=
  match p with
  | EmptyString => EmptyString
  | String c r =>
      match upto_last_sep r with
      | EmptyString => if Ascii.eqb c "/" then String c EmptyString else EmptyString
      | h => String c h
      end
  end.

(** [s.rstrip("/")]. *)
Fixpoint rstrip_sep (s : string) : string :=
  match s with
  | EmptyString => EmptyString
  | String c r =>
      match rstrip_sep r with
      | EmptyString => if Ascii.eqb c "/" then EmptyString else String c EmptyString
      | r' => String c r'
      end
  end.

Definition dirname (p : string) : string :=
  let head := upto_last_sep p in
  if negb (String.eqb head "") && negb (all_chars "/" head)
  then rstrip_sep head else head.

(** [s.rfind(c)] counted from [i], the index of the first character of
    [s]; [last] is the answer so far. *)
Fixpoint rfind_from (c : ascii) (i : Z) (s : string) (last : Z) : Z :=
  match s with
  | EmptyString => last
  | String a r => rfind_from c (i + 1) r (if Ascii.eqb a c then i else last)
  end.

Definition rfind (c : ascii) (s : string) : Z := rfind_from c 0 s (-1).

(** [os.path.splitext(p)[0]]: the last dot of the file name starts the
    extension unless only dots come before it in that name. *)
Definition splitext_root (p : string) : string :=
  let sepIndex := rfind "/" p in
  let dotIndex := rfind "." p in
  if (sepIndex <? dotIndex)
     && negb (all_chars "."
                (substring (Z.to_nat (sepIndex + 1))
                           (Z.to_nat (dotIndex - sepIndex - 1)) p))
  then substring 0 (Z.to_nat dotIndex) p
  else p.

Definition startswith (pre s : string) : bool := String.prefix pre s.

Definition endswith (suf s : string) : bool :=
  (String.length suf <=? String.length s)%nat
  && String.eqb (substring (String.length s - String.length suf)
                           (String.length suf) s) suf.

Definition path_join (a b : string) : string :=
  if startswith "/" b then b
  else if String.eqb a "" || endswith "/" a then a +:+ b
  else a +:+ "/" +:+ b.

(** [sorted] on strings: by code points, a proper prefix first. *)
Fixpoint insert_sorted (x : string) (l : list string) : list string :=
  match l with
  | [] => [x]
  | y :: r => if String.leb x y then x :: l else y :: insert_sorted x r
  end.

Definition sorted (l : list string) : list string :=
  foldr insert_sorted [] l.

(** ** ensure_readable, ensure_writable *)

Definition ensure_readable (path : string) : M unit :=
  if String.eqb path "" then raise (JobError "Missing required file path")
  else
    isfile <- perform (EIsFile path) (fun t => Ok (os_isfile w t path)) ;;
    if negb isfile then raise (JobError ("File not found: " +:+ path))
    else
      readable <- perform (EAccess path false)
                    (fun t => Ok (os_access w t path false)) ;;
      if negb readable then raise (JobError ("File not readable: " +:+ path))
      else ret tt.

Definition ensure_writable (path : string) : M unit :=
  let directory :=
    if String.eqb (dirname path) "" then "." else dirname path in
  isdir <- perform (EIsDir directory) (fun t => Ok (os_isdir w t directory)) ;;
  if negb isdir
  then raise (JobError ("Output directory does not exist: " +:+ directory))
  else
    writable <- perform (EAccess directory true)
                  (fun t => Ok (os_access w t directory true)) ;;
    if negb writable
    then raise (JobError ("Output directory not writable: " +:+ directory))
    else ret tt.

(** ** load_frames *)

(** [max(duration, 0.0)]: the second argument wins only when it is
    greater than the first. *)
Definition max_zero (duration : spec_float) : spec_float :=
  if Py.float_lt duration (Py.float_of_Z 0) then Py.float_of_Z 0 else duration.

Definition frame_of_raw (frame : raw_frame) : FrameInfo :=
  let start := default (Py.float_of_Z 0) (pkt_pts_time frame) in
  let duration := default (Py.float_of_Z 0) (pkt_duration_time frame) in
  mkFrameInfo start (Py.float_add start (max_zero duration)).

Definition load_frames (input_path : string) : M (list FrameInfo) :=
  out <- run_command
           ["ffprobe"; "-v"; "error"; "-select_streams"; "s:0"; "-show_entries";
            "frame=pkt_pts_time,pkt_duration_time"; "-of"; "json"; input_path] ;;
  data <- lift (json_frames w (if String.eqb out "" then "{}" else out)) ;;
  ret (map frame_of_raw data).

(** ** extract_images *)

Definition extract_images (input_path output_dir : string) : M (list string) :=
  perform (EMakedirs output_dir) (fun t => os_makedirs w t output_dir) ;;
  let output_pattern := path_join output_dir "subtitle-%06d.png" in
  run_command
    ["ffmpeg"; "-v"; "error"; "-i"; input_path; "-map"; "0:s:0"; "-vsync"; "0";
     "-f"; "image2"; output_pattern] ;;
  names <- perform (EListdir output_dir) (fun t => os_listdir w t output_dir) ;;
  ret (sorted (map (path_join output_dir)
                   (filter (fun name => endswith ".png" (Py.lower name) = true)
                           names))).

(** ** ocr_image *)

Definition ocr_image (image_path language : string) : M string :=
  out <- run_command
           ["tesseract"; image_path; "stdout"; "-l"; language; "--psm"; "6";
            "--dpi"; "300"] ;;
  let text := Py.strip out in
  ret (Py.join " " (Py.split text)).

(** ** build_srt *)

Definition newline : string := String "010" "".

(** [f"{index}\n{start} --> {end}\n{text}\n"]. *)
Definition srt_entry (index : Z) (start end_ text : string) : string :=
  Py.str index +:+ newline +:+ start +:+ " --> " +:+ end_ +:+ newline
  +:+ text +:+ newline.

(** The loop of [build_srt] over the zipped pairs, with its two
    variables [entries] and [index]. *)
Fixpoint build_srt_loop (pairs : list (FrameInfo * string))
    (entries : list string) (index : Z) : result (list string) :=
  match pairs with
  | [] => Ok entries
  | (frame, text) :: rest =>
      if String.eqb text "" then build_srt_loop rest entries index
      else
        result_bind (seconds_to_srt_time (start frame)) (fun start =>
        result_bind (seconds_to_srt_time (end_ frame)) (fun end_ =>
        if String.eqb start end_ then build_srt_loop rest entries index
        else build_srt_loop rest
               (entries ++ [srt_entry index start end_ text]) (index + 1)))
  end.

Definition srt_entries (frames : list FrameInfo) (texts : list string)
  : result (list string) :=
  build_srt_loop (zip frames texts) [] 1.

Definition build_srt (frames : list FrameInfo) (texts : list string)
  : result string :=
  result_bind (srt_entries frames texts) (fun entries =>
  Ok (Py.strip (Py.join newline entries)
      +:+ (match entries with [] => "" | _ => newline end))).

(** ** validate_output *)

Definition validate_output (path : string) : M unit :=
  isfile <- perform (EIsFile path) (fun t => Ok (os_isfile w t path)) ;;
  if negb isfile then raise (JobError "Output SRT not created")
  else
    size <- perform (EGetsize path) (fun t => os_getsize w t path) ;;
    if size =? 0 then raise (JobError "Output SRT is empty") else ret tt.

(** ** process_job *)

(** [with tempfile.TemporaryDirectory(prefix=...) as tempdir: body]: the
    directory is removed however the body ends. *)
Definition with_tempdir {A} (prefix : string) (body : string -> M A) : M A :=
  fun t =>
    match os_mkdtemp w t prefix with
    | Raise e => (Raise e, t ++ [EMkdtemp prefix])
    | Ok tempdir =>
        let (r, t') := body tempdir (t ++ [EMkdtemp prefix]) in
        (r, t' ++ [ECleanup tempdir])
    end.

(** The loop over [images[:count]]: a [CalledProcessError] of one image
    is logged and gives the empty text; any other exception ends the job. *)
Fixpoint ocr_loop (language : string) (images : list string)
    (texts : list string) : M (list string) :=
  match images with
  | [] => ret texts
  | image_path :: rest =>
      text <- catch (ocr_image image_path language)
                (fun e => match e with
                          | CalledProcessError _ err =>
                              Some (log ("[error] OCR failed on " +:+ image_path
                                         +:+ ": " +:+ Py.strip err) ;;
                                    ret "")
                          | _ => None
                          end) ;;
      ocr_loop language rest (texts ++ [text])
  end.

(** [job.get(key)] when it is truthy: a key that is absent, null or the
    empty string gives [None]. *)
Definition job_get (job : gmap string string) (key : string) : option string :=
  match job !! key with
  | Some v => if String.eqb v "" then None else Some v
  | None => None
  end.

(** Lines 194 to 213: the output and input paths are checked; the result
    is [srt_output] with [input_path]. *)
Definition validate_paths (job : gmap string string) (job_type : string)
  : M (string * string) :=
  match job_get job "srt_output" with
  | None => raise (JobError "Missing srt_output in job")
  | Some srt_output =>
      ensure_writable srt_output ;;
      if String.eqb job_type "vobsub" then
        match job_get job "idx" with
        | None => raise (JobError "Missing idx path for vobsub job")
        | Some idx_path =>
            ensure_readable idx_path ;;
            let companion := splitext_root idx_path +:+ ".sub" in
            ensure_readable companion ;;
            ret (srt_output, idx_path)
        end
      else
        match job_get job "bitmap_file" with
        | None => raise (JobError "Missing bitmap_file path for pgs job")
        | Some bitmap_path =>
            ensure_readable bitmap_path ;;
            ret (srt_output, bitmap_path)
        end
  end.

(** The body of the [with] block; [Some code] is a [return code] inside
    the block, [None] leaves it normally. *)
Definition recognize_and_write (input_path srt_output language : string)
    (frames : list FrameInfo) (tempdir : string) : M (option Z) :=
  let images_dir := path_join tempdir "frames" in
  images <- extract_images input_path images_dir ;;
  match images with
  | [] => log "[warn] No images extracted." ;; ret (Some 2)
  | _ =>
      (if negb (length images =? length frames)%nat then
         log ("[warn] Frame count mismatch (frames="
              +:+ Py.str (Z.of_nat (length frames))
              +:+ " images=" +:+ Py.str (Z.of_nat (length images))
              +:+ "). Using minimum count.")
       else ret tt) ;;
      let count := Nat.min (length images) (length frames) in
      texts <- ocr_loop language (take count images) [] ;;
      srt_content <- lift (build_srt (take count frames) texts) ;;
      if String.eqb (Py.strip srt_content) "" then
        log "[warn] OCR produced empty output." ;; ret (Some 2)
      else
        perform (EWrite srt_output srt_content)
          (fun t => os_write w t srt_output srt_content) ;;
        ret None
  end.

Definition process_job (job : gmap string string) (dry_run : bool) : M Z :=
  let job_type := Py.strip (Py.lower (default "" (job !! "type"))) in
  if negb (member job_type SUPPORTED_TYPES) then
    log ("[warn] Unsupported type '" +:+ job_type
         +:+ "'. Marking as needs-review.") ;;
    ret 2
  else
    paths <- validate_paths job job_type ;;
    let '(srt_output, input_path) := paths in
    resolved <- resolve_language (job !! "language") ;;
    let '(language, _available) := resolved in
    log ("[info] Using tesseract language: " +:+ language) ;;
    frames <- load_frames input_path ;;
    match frames with
    | [] => log "[warn] No subtitle frames detected." ;; ret 2
    | _ =>
        if dry_run then log "[info] Dry run successful." ;; ret 0
        else
          returned <- with_tempdir "ocr_worker_"
                        (recognize_and_write input_path srt_output language frames) ;;
          match returned with
          | Some code => ret code
          | None =>
              validate_output srt_output ;;
              log ("[info] Wrote SRT: " +:+ srt_output) ;;
              ret 0
          end
    end.

End Worker.

(** ** Specification vocabulary *)

(** [math.isfinite]. *)
Definition isfinite (x : spec_float) : bool :=
  match x with
  | S754_zero _ | S754_finite _ _ _ => true
  | _ => false
  end.

Definition digit_char (d : Z) : ascii := ascii_of_N (Z.to_N (48 + d)).

(** The last [w] decimal digits of [n], most significant first. *)
Fixpoint fixed_width (w : nat) (n : Z) : string :=
  match w with
  | O => ""
  | S k => fixed_width k (n / 10) +:+ String (digit_char (n mod 10)) ""
  end.

(** The hours field: at least two digits, all the digits of a larger
    number. *)
Definition hours_field (h : Z) : string :=
  if h <? 100 then fixed_width 2 h else Py.str h.

(** [HH:MM:SS,mmm] for a number of milliseconds, by quotients and
    remainders. *)
Definition srt_shape (m : Z) : string :=
  hours_field (m / 3600000) +:+ ":" +:+ fixed_width 2 ((m / 60000) mod 60)
  +:+ ":" +:+ fixed_width 2 ((m / 1000) mod 60)
  +:+ "," +:+ fixed_width 3 (m mod 1000).

(** What one (frame, text) pair contributes to the captions: its two
    timestamps and its text, or nothing when the text is empty or the two
    timestamps are the same string. *)
Definition caption : Type := (string * string * string)%type.

Definition caption_of (p : FrameInfo * string) : option caption :=
  if String.eqb p.2 "" then None
  else
    match seconds_to_srt_time (start p.1), seconds_to_srt_time (end_ p.1) with
    | Ok s, Ok e => if String.eqb s e then None else Some (s, e, p.2)
    | _, _ => None
    end.

(** A pair that the assembler is to drop. *)
Definition degenerate (p : FrameInfo * string) : Prop :=
  p.2 = ""
  \/ exists s, seconds_to_srt_time (start p.1) = Ok s
               /\ seconds_to_srt_time (end_ p.1) = Ok s.

(** The caption blocks numbered from [index] on. *)
Fixpoint number_entries (index : Z) (caps : list caption) : list string :=
  match caps with
  | [] => []
  | (s, e, t) :: rest => srt_entry index s e t :: number_entries (index + 1) rest
  end.

(** Both timestamps of a frame can be formatted. *)
Definition formattable (frame : FrameInfo) : Prop :=
  (exists s, seconds_to_srt_time (start frame) = Ok s)
  /\ (exists e, seconds_to_srt_time (end_ frame) = Ok e).

(** A recognized text as [ocr_image] returns it: trimmed, its runs of
    whitespace collapsed to one space. *)
Definition normalized (text : string) : Prop :=
  Py.join " " (Py.split text) = text.

(** The text of an entry before its first line feed, and the sequence
    number read back from it. *)
Fixpoint first_line (s : string) : string :=
  match s with
  | EmptyString => EmptyString
  | String c r => if Ascii.eqb c "010" then EmptyString else String c (first_line r)
  end.

Definition entry_number (entry : string) : option Z :=
  option_map Z.of_int (NilZero.int_of_string (first_line entry)).

(** The last character of [s] is not whitespace ([s] is not empty). *)
Definition ends_nonspace (s : string) : Prop :=
  exists body c, s = body +:+ String c "" /\ Py.isspace c = false.

(** [s] ends with a character that is not whitespace followed by one
    line feed. *)
Definition ends_line (s : string) : Prop :=
  exists body c, s = (body +:+ String c "") +:+ newline /\ Py.isspace c = false.

(** A string of whitespace only. *)
Fixpoint all_space (s : string) : bool :=
  match s with
  | EmptyString => true
  | String c r => Py.isspace c && all_space r
  end.

(** The warning of [resolve_language] for a tag that is not installed. *)
Definition fallback_warning (normalized : string) : effect :=
  EPrint ("[warn] Requested language '" +:+ normalized
          +:+ "' not installed. Falling back to '" +:+ DEFAULT_LANG +:+ "'.").

(** The two effects of [run_command cmd]. *)
Definition command_effects (cmd : list string) : list effect :=
  [EPrint ("[cmd] " +:+ Py.join " " cmd); ERun cmd].

(** The command of [ocr_image] and the line logged when it fails. *)
Definition ocr_command (image_path language : string) : list string :=
  ["tesseract"; image_path; "stdout"; "-l"; language; "--psm"; "6"; "--dpi"; "300"].

Definition ocr_failure_line (image_path err : string) : effect :=
  EPrint ("[error] OCR failed on " +:+ image_path +:+ ": " +:+ Py.strip err).

(** An environment in which a command ends normally or with a non-zero
    exit status, and in no other way. *)
Definition recoverable (w : os) : Prop :=
  forall history cmd,
    match os_run w history cmd with
    | Ok _ | Raise (CalledProcessError _ _) => True
    | Raise _ => False
    end.

(** What [entrypoint] passes to [sys.exit]: the code that [main] returns,
    1 for any exception. *)
Definition exit_status (r : result Z) : Z :=
  match r with
  | Ok code => code
  | Raise _ => 1
  end.

(** The effects of validation, language resolution and timing: printing,
    questions to the file system, the language query and ffprobe.  No
    directory or file is created, ffmpeg and recognition are not run. *)
Definition validation_effect (e : effect) : bool :=
  match e with
  | EPrint _ | EIsFile _ | EIsDir _ | EAccess _ _ => true
  | ERun ["tesseract"; "--list-langs"] => true
  | ERun ("ffprobe" :: _) => true
  | _ => false
  end.

Definition is_validation (e : effect) : Prop := validation_effect e = true.

(** A string without whitespace. *)
Fixpoint no_space (s : string) : bool :=
  match s with
  | EmptyString => true
  | String c r => negb (Py.isspace c) && no_space r
  end.

(** Every effect of [m], from any history, satisfies [P]. *)
Definition confined {A} (P : effect -> Prop) (m : M A) : Prop :=
  forall t, exists evs, (m t).2 = t ++ evs /\ Forall P evs.

(** The pair at position [i] of the two sequences, when both have one. *)
Definition pair_at (frames : list FrameInfo) (texts : list string) (i : nat)
  : option (FrameInfo * string) :=
  match frames !! i, texts !! i with
  | Some frame, Some text => Some (frame, text)
  | _, _ => None
  end.

(** The pairs at the positions 0, 1, ..., [n - 1], in that order. *)
Definition first_pairs (n : nat) (frames : list FrameInfo) (texts : list string)
  : list (FrameInfo * string) :=
  omap (pair_at frames texts) (seq 0 n).

(** One line of text with its line feed. *)
Definition text_line (s : string) : string := s +:+ String "010" "".

(** The block of the design document for one caption,
    [sequenceNumber\nstart --> end\ntext\n]: three lines. *)
Definition spec_block (number : Z) (cap : caption) : string :=
  text_line (Py.str number)
  +:+ text_line (cap.1.1 +:+ " --> " +:+ cap.1.2)
  +:+ text_line cap.2.

(** The serialization of the design document: the blocks of the captions
    in their order, numbered from [number] on, one empty line between two
    consecutive blocks, nothing after the last block, and the empty string
    when there is no caption. *)
Fixpoint spec_serialize (number : Z) (caps : list caption) : string :=
  match caps with
  | [] => ""
  | [cap] => spec_block number cap
  | cap :: rest =>
      spec_block number cap +:+ text_line "" +:+ spec_serialize (number + 1) rest
  end.

(** No line boundary of [str.splitlines] occurs in [s]. *)
Fixpoint no_linebreak (s : string) : bool :=
  match s with
  | EmptyString => true
  | String c r => negb (Py.islinebreak c) && no_linebreak r
  end.

(** ** Sample data *)

(** The scenario of the design document: "HELLO" from 0 s to 1.5 s, then
    "WORLD" on a frame of no duration. *)
Definition scenario_frames : list FrameInfo :=
  [mkFrameInfo (Py.float_of_Z 0) (Py.dyadic 3 (-1));
   mkFrameInfo (Py.dyadic 3 (-1)) (Py.dyadic 3 (-1))].

Definition scenario_texts : list string := ["HELLO"; "WORLD"].

Definition scenario_entry : string :=
  srt_entry 1 "00:00:00,000" "00:00:01,500" "HELLO".

(** Five frames, the last two of which cannot be formatted, and three
    texts. *)
Definition five_frames : list FrameInfo :=
  [mkFrameInfo (Py.float_of_Z 0) (Py.float_of_Z 1);
   mkFrameInfo (Py.float_of_Z 1) (Py.float_of_Z 2);
   mkFrameInfo (Py.float_of_Z 2) (Py.float_of_Z 3);
   mkFrameInfo S754_nan S754_nan;
   mkFrameInfo (S754_infinity false) (S754_infinity false)].

Definition three_texts : list string := ["a"; ""; "c"].

(** An environment with English, Japanese and the orientation data
    installed, two frames in the track and two images extracted. *)
Definition sample_os : os :=
  mkOs
    (fun _ cmd =>
       match cmd with
       | ["tesseract"; "--list-langs"] =>
           Ok (Py.join newline ["List of available languages (3):"; "eng"; "jpn"; "osd"; ""])
       | "tesseract" :: _ => Ok " HELLO  WORLD "
       | _ => Ok "{}"
       end)
    (fun _ _ => true) (fun _ _ => true) (fun _ _ _ => true)
    (fun _ _ => Ok "/tmp/ocr_worker_x")
    (fun _ _ => Ok tt)
    (fun _ _ => Ok ["subtitle-000002.png"; "subtitle-000001.png"])
    (fun _ _ _ => Ok tt)
    (fun _ _ => Ok 43)
    (fun _ => Ok [mkRawFrame (Some (Py.float_of_Z 0)) (Some (Py.dyadic 3 (-1)));
                  mkRawFrame (Some (Py.dyadic 3 (-1))) None]).

(** The same environment without any language data but the orientation
    data. *)
Definition bare_os : os :=
  mkOs
    (fun _ _ => Ok (Py.join newline ["List of available languages (1):"; "osd"]))
    (os_isfile sample_os) (os_isdir sample_os) (os_access sample_os)
    (os_mkdtemp sample_os) (os_makedirs sample_os) (os_listdir sample_os)
    (os_write sample_os) (os_getsize sample_os) (json_frames sample_os).

Definition sample_job : gmap string string :=
  list_to_map [("type", "vobsub"); ("idx", "a.idx"); ("srt_output", "out.srt");
               ("language", "en")].

(** The sample environment with a recognition that fails on the first
    image. *)
Definition failing_os : os :=
  mkOs
    (fun _ cmd =>
       match cmd with
       | ["tesseract"; "--list-langs"] => os_run sample_os [] cmd
       | "tesseract" :: "/tmp/ocr_worker_x/frames/subtitle-000001.png" :: _ =>
           Raise (CalledProcessError cmd "Error during processing. ")
       | _ => os_run sample_os [] cmd
       end)
    (os_isfile sample_os) (os_isdir sample_os) (os_access sample_os)
    (os_mkdtemp sample_os) (os_makedirs sample_os) (os_listdir sample_os)
    (os_write sample_os) (os_getsize sample_os) (json_frames sample_os).

(** Three frames: a caption of two words, a frame of no duration and a
    second caption that ends after one hour. *)
Definition dialogue_frames : list FrameInfo :=
  [mkFrameInfo (Py.float_of_Z 0) (Py.dyadic 3 (-1));
   mkFrameInfo (Py.dyadic 3 (-1)) (Py.dyadic 3 (-1));
   mkFrameInfo (Py.float_of_Z 2) (Py.float_of_Z 3700)].

Definition dialogue_texts : list string := ["HELLO WORLD"; "WORLD"; "GOOD BYE"].

(** ** Further vocabulary *)

(** The part of [s] before the first [c], and the part after it. *)
Fixpoint before (c : ascii) (s : string) : string :=
  match s with
  | EmptyString => EmptyString
  | String a r => if Ascii.eqb a c then EmptyString else String a (before c r)
  end.

Fixpoint after (c : ascii) (s : string) : string :=
  match s with
  | EmptyString => EmptyString
  | String a r => if Ascii.eqb a c then r else after c r
  end.

(** [c] does not occur in [s]. *)
Fixpoint lacks (c : ascii) (s : string) : bool :=
  match s with
  | EmptyString => true
  | String a r => negb (Ascii.eqb a c) && lacks c r
  end.

Definition is_digit (c : ascii) : bool :=
  (48 <=? Z.of_N (N_of_ascii c)) && (Z.of_N (N_of_ascii c) <=? 57).

(** The number that a string of decimal digits stands for. *)
Definition decimal (s : string) : option Z :=
  option_map Z.of_int (NilZero.int_of_string s).

(** A field of fixed width holds digits only and reads back as its
    number. *)
Definition field_ok (w : nat) (z : Z) : bool :=
  lacks ":" (fixed_width w z) && lacks "," (fixed_width w z)
  && bool_decide (decimal (fixed_width w z) = Some z)
  && (String.length (fixed_width w z) =? w)%nat.

(** The milliseconds that a timestamp [H..H:MM:SS,mmm] stands for. *)
Definition srt_millis (stamp : string) : option Z :=
  match decimal (before ":" stamp),
        decimal (before ":" (after ":" stamp)),
        decimal (before "," (after ":" (after ":" stamp))),
        decimal (after "," (after ":" (after ":" stamp))) with
  | Some h, Some m, Some s, Some ms =>
      Some (h * 3600000 + m * 60000 + s * 1000 + ms)
  | _, _, _, _ => None
  end.

(** One line of the language listing: not empty, trimmed, without a line
    boundary inside. *)
Definition listing_line (line : string) : Prop :=
  line <> "" /\ Py.strip line = line /\ no_linebreak line = true.

(** What [tesseract --list-langs] prints: a header line, then one line for
    each language. *)
Definition tesseract_listing (header : string) (langs : list string) : string :=
  Py.join newline (header :: langs) +:+ newline.

(** An environment whose commands answer the same whatever came before. *)
Definition stateless (w : os) : Prop :=
  forall history history' cmd, os_run w history cmd = os_run w history' cmd.

(** The text that the recognition loop records for one image in such an
    environment. *)
Definition recognized (w : os) (language image_path : string) : string :=
  match os_run w [] (ocr_command image_path language) with
  | Ok out => Py.join " " (Py.split (Py.strip out))
  | Raise _ => ""
  end.

(** The command of [extract_images]. *)
Definition ffmpeg_command (input_path output_dir : string) : list string :=
  ["ffmpeg"; "-v"; "error"; "-i"; input_path; "-map"; "0:s:0"; "-vsync"; "0";
   "-f"; "image2"; path_join output_dir "subtitle-%06d.png"].

(** The effects of extraction and recognition, inside the temporary
    directory: printing, commands, creating and listing the directory of
    the images. *)
Definition inner_effect (e : effect) : bool :=
  match e with
  | EPrint _ | ERun _ | EMakedirs _ | EListdir _ => true
  | _ => false
  end.

Definition is_inner (e : effect) : Prop := inner_effect e = true.

(** The three effects that end a successful run. *)
Definition closing_effects (srt_output : string) : list effect :=
  [EIsFile srt_output; EGetsize srt_output;
   EPrint ("[info] Wrote SRT: " +:+ srt_output)].

(** The creation and the removal of the temporary directory. *)
Definition is_tempdir_effect (e : effect) : bool :=
  match e with
  | EMkdtemp _ | ECleanup _ => true
  | _ => false
  end.

(** A job whose type is supported and whose run reaches the temporary
    directory: what the stages before it returned. *)
Record prepared : Type := mkPrepared {
  p_srt_output : string;
  p_input_path : string;
  p_language : string;
  p_frames : list FrameInfo
}.

(** The effects after the temporary directory is removed: printing and
    questions about the output file. *)
Definition closing_effect (e : effect) : bool :=
  match e with
  | EPrint _ | EIsFile _ | EGetsize _ => true
  | _ => false
  end.

Definition is_closing (e : effect) : Prop := closing_effect e = true.

(** * Properties *)

(** ** Arithmetic of the timestamp fields *)

Lemma Z_range_forallb (P : Z -> bool) (n : nat) :
  forallb P (map Z.of_nat (seq 0 n)) = true ->
  forall z, 0 <= z < Z.of_nat n -> P z = true.
Proof.
  intros Hall z Hz.
  rewrite forallb_forall in Hall. apply Hall.
  apply in_map_iff. exists (Z.to_nat z). split; [lia|].
  apply in_seq. lia.
Qed.

Lemma format_zero_2 n : 0 <= n < 100 -> Py.format_zero 2 n = fixed_width 2 n.
Proof.
  intros Hn. apply String.eqb_eq.
  apply (Z_range_forallb
           (fun z => String.eqb (Py.format_zero 2 z) (fixed_width 2 z)) 100);
    [vm_compute; reflexivity | lia].
Qed.

Lemma format_zero_3 n : 0 <= n < 1000 -> Py.format_zero 3 n = fixed_width 3 n.
Proof.
  intros Hn. apply String.eqb_eq.
  apply (Z_range_forallb
           (fun z => String.eqb (Py.format_zero 3 z) (fixed_width 3 z)) 1000);
    [vm_compute; reflexivity | lia].
Qed.

Lemma string_of_uint_length d :
  String.length (NilEmpty.string_of_uint d) = Decimal.nb_digits d.
Proof. induction d; simpl; congruence. Qed.

(** A number of at least 100 prints with three digits or more. *)
Lemma str_length_ge_100 n : 100 <= n -> (3 <= String.length (Py.str n))%nat.
Proof.
  intros Hn. destruct n as [|p|p]; try lia.
  unfold Py.str. simpl.
  pose proof (DecimalPos.Unsigned.of_to p) as Hp.
  pose proof (DecimalPos.Unsigned.to_uint_nonnil p) as Hnil.
  destruct (Pos.to_uint p) as [|u|u|u|u|u|u|u|u|u|u] eqn:E; try congruence;
    simpl; rewrite string_of_uint_length;
    (destruct u as [|u|u|u|u|u|u|u|u|u|u];
     [vm_compute in Hp; first [discriminate | injection Hp; intros; lia] | ..];
     (destruct u as [|u|u|u|u|u|u|u|u|u|u];
      [vm_compute in Hp; first [discriminate | injection Hp; intros; lia] | ..]; simpl; lia)).
Qed.

Lemma format_zero_hours h : 0 <= h -> Py.format_zero 2 h = hours_field h.
Proof.
  intros Hh. unfold hours_field.
  destruct (Z.ltb_spec h 100) as [Hlt|Hge].
  - apply format_zero_2. lia.
  - unfold Py.format_zero.
    destruct (Z.ltb_spec h 0); [lia|].
    rewrite Z.abs_eq by lia.
    pose proof (str_length_ge_100 h Hge) as Hlen.
    replace (2 - String.length "" - String.length (Py.str h))%nat with 0%nat
      by (simpl; lia).
    reflexivity.
Qed.

Lemma srt_fields_shape m : 0 <= m -> srt_fields m = srt_shape m.
Proof.
  intros Hm. unfold srt_fields, srt_shape.
  assert (H1 : m - m / 3600000 * 3600000 = m mod 3600000)
    by (rewrite (Z.mod_eq m 3600000); lia).
  rewrite H1.
  assert (H2 : m mod 3600000 / 60000 = (m / 60000) mod 60).
  { change 3600000 with (60000 * 60).
    rewrite Z.rem_mul_r by lia.
    rewrite (Z.mul_comm 60000), Z.div_add by lia.
    rewrite (Z.div_small (m mod 60000)) by (apply Z.mod_pos_bound; lia). lia. }
  rewrite H2.
  assert (H3 : m mod 3600000 - (m / 60000) mod 60 * 60000 = m mod 60000).
  { change 3600000 with (60000 * 60).
    rewrite Z.rem_mul_r by lia. lia. }
  rewrite H3.
  assert (H4 : m mod 60000 / 1000 = (m / 1000) mod 60).
  { change 60000 with (1000 * 60).
    rewrite Z.rem_mul_r by lia.
    rewrite (Z.mul_comm 1000), Z.div_add by lia.
    rewrite (Z.div_small (m mod 1000)) by (apply Z.mod_pos_bound; lia). lia. }
  rewrite H4.
  assert (H5 : m mod 60000 - (m / 1000) mod 60 * 1000 = m mod 1000).
  { change 60000 with (1000 * 60).
    rewrite Z.rem_mul_r by lia. lia. }
  rewrite H5.
  rewrite format_zero_hours by (apply Z.div_pos; lia).
  rewrite !format_zero_2
    by (pose proof (Z.mod_pos_bound (m / 60000) 60);
        pose proof (Z.mod_pos_bound (m / 1000) 60); lia).
  rewrite format_zero_3 by (apply Z.mod_pos_bound; lia).
  reflexivity.
Qed.

(** ** Floats: signs and rounding *)

Lemma round_half_even_nonneg m e : 0 <= m -> 0 <= Py.round_half_even m e.
Proof.
  intros Hm. unfold Py.round_half_even.
  destruct (0 <=? e) eqn:He.
  - apply Z.mul_nonneg_nonneg; [lia | apply Z.pow_nonneg; lia].
  - assert (0 < 2 ^ (- e)) by (apply Z.pow_pos_nonneg; lia).
    assert (0 <= m / 2 ^ (- e)) by (apply Z.div_pos; lia).
    destruct (2 * (m mod 2 ^ (- e)) ?= 2 ^ (- e));
      try destruct (Z.even _); lia.
Qed.

Lemma float_1000 : Py.float_of_Z 1000 = S754_finite false 8796093022208000 (-43).
Proof. reflexivity. Qed.

Lemma float_0 : Py.float_of_Z 0 = S754_zero false.
Proof. reflexivity. Qed.

(** A float that is not below zero has a product with 1000 that is, when
    finite, rounded to an int that is not below zero. *)
Lemma round_millis_nonneg v :
  Py.float_lt v (Py.float_of_Z 0) = false ->
  isfinite (Py.float_mul v (Py.float_of_Z 1000)) = true ->
  exists m, Py.round (Py.float_mul v (Py.float_of_Z 1000)) = Ok m /\ 0 <= m.
Proof.
  rewrite float_1000, float_0. intros Hlt Hfin.
  destruct v as [s|s| |s m e]; simpl in *; try discriminate.
  - exists 0. split; [reflexivity | lia].
  - destruct s; [discriminate|].
    unfold Py.float_mul, SFmul, binary_round_aux in *. simpl xorb in *.
    destruct (shr_fexp _ _ _ _ _) as [mrs' e'].
    destruct (shr_fexp _ _ _ _ _) as [mrs'' e''].
    destruct (shr_m mrs'') as [|p|p]; simpl in *; try discriminate.
    + exists 0. split; [reflexivity | lia].
    + destruct (e'' <=? _); simpl in *; try discriminate.
      eexists. split; [reflexivity|].
      apply round_half_even_nonneg. lia.
Qed.

Lemma total_millis_negative x :
  Py.float_lt (Py.float_of_Z 0) x = true -> total_millis (SFopp x) = Ok 0.
Proof.
  rewrite float_0. unfold total_millis. rewrite float_0. intros Hx.
  destruct x as [s|s| |s m e]; simpl in *; try discriminate;
    destruct s; simpl in *; try discriminate; reflexivity.
Qed.

Lemma iter_pos_invariant {A} (P : A -> Prop) (f : A -> A) :
  (forall x, P x -> P (f x)) -> forall p x, P x -> P (SpecFloat.iter_pos f p x).
Proof.
  intros Hf. induction p as [p IH|p IH|]; intros x Hx; simpl; auto.
Qed.

Lemma shr_1_nonneg mrs : 0 <= shr_m mrs -> 0 <= shr_m (shr_1 mrs).
Proof.
  destruct mrs as [m r s]. simpl.
  destruct m as [|[p|p|]|[p|p|]]; simpl; lia.
Qed.

Lemma shr_fexp_nonneg m e l :
  0 <= m -> 0 <= shr_m (shr_fexp Py.prec Py.emax m e l).1.
Proof.
  intros Hm. unfold shr_fexp, shr.
  assert (H0 : 0 <= shr_m (shr_record_of_loc m l))
    by (destruct l as [|[]]; simpl; lia).
  destruct (fexp _ _ _ - e) as [|p|p]; simpl; try done.
  by apply iter_pos_invariant; [apply shr_1_nonneg|].
Qed.

(** Rounding a mantissa that is not negative gives no NaN, and an
    infinity only of the sign that was asked for. *)
Lemma binary_round_aux_not_nan s m e l :
  0 <= m -> binary_round_aux Py.prec Py.emax s m e l <> S754_nan.
Proof.
  intros Hm. unfold binary_round_aux.
  pose proof (shr_fexp_nonneg m e l Hm) as H1.
  destruct (shr_fexp Py.prec Py.emax m e l) as [mrs' e']. simpl in H1.
  assert (H2 : 0 <= round_nearest_even (shr_m mrs') (loc_of_shr_record mrs')).
  { unfold round_nearest_even.
    destruct (loc_of_shr_record mrs') as [|[]]; try lia.
    destruct (Z.even _); lia. }
  pose proof (shr_fexp_nonneg _ e' loc_Exact H2) as H3.
  destruct (shr_fexp Py.prec Py.emax _ e' loc_Exact) as [mrs'' e'']. simpl in H3.
  destruct (shr_m mrs'') as [|p|p]; try lia; try done.
  by destruct (e'' <=? _).
Qed.

Lemma binary_round_aux_infinity s m e l s' :
  binary_round_aux Py.prec Py.emax s m e l = S754_infinity s' -> s' = s.
Proof.
  unfold binary_round_aux.
  destruct (shr_fexp Py.prec Py.emax m e l) as [mrs' e'].
  destruct (shr_fexp Py.prec Py.emax _ e' loc_Exact) as [mrs'' e''].
  destruct (shr_m mrs'') as [|p|p]; try done.
  destruct (e'' <=? _); [done|]. by intros [= <-].
Qed.

(** An offset that is not negative and not NaN has a product with 1000
    that is finite or the positive infinity; on the infinity the rounding
    raises. *)
Lemma infinite_product_raises u :
  Py.float_lt u (Py.float_of_Z 0) = false -> u <> S754_nan ->
  isfinite (Py.float_mul u (Py.float_of_Z 1000)) = false ->
  Py.float_mul u (Py.float_of_Z 1000) = S754_infinity false
  /\ seconds_to_srt_time u = Raise OverflowError.
Proof.
  intros Hlt Hnan Hfin.
  assert (Hinf : Py.float_mul u (Py.float_of_Z 1000) = S754_infinity false).
  { revert Hlt Hfin. rewrite float_1000, float_0.
    destruct u as [s|s| |s m e]; simpl; try done.
    - destruct s; done.
    - destruct s; [done|]. intros _.
      unfold Py.float_mul, SFmul. simpl xorb.
      destruct (binary_round_aux _ _ _ _ _ _) as [s'|s'| |s' m' e'] eqn:Hr;
        try done; intros _.
      + apply binary_round_aux_infinity in Hr. by subst s'.
      + by apply binary_round_aux_not_nan in Hr. }
  split; [exact Hinf|].
  unfold seconds_to_srt_time, total_millis. by rewrite Hlt, Hinf.
Qed.

(** A string is returned exactly for a negative offset and for one whose
    product with 1000 is finite. *)
Lemma seconds_to_srt_time_returns u :
  (exists s, seconds_to_srt_time u = Ok s)
  <-> Py.float_lt u (Py.float_of_Z 0) = true
      \/ isfinite (Py.float_mul u (Py.float_of_Z 1000)) = true.
Proof.
  unfold seconds_to_srt_time, total_millis.
  destruct (Py.float_lt u (Py.float_of_Z 0)) eqn:Hlt.
  - simpl. split; eauto.
  - destruct (Py.float_mul u (Py.float_of_Z 1000)) as [s|s| |s m e]; simpl;
      split; eauto; try (by intros [? [=]]); by intros [[=]|[=]].
Qed.

(** [seconds_to_srt_time] raises only the two exceptions of the rounding. *)
Lemma seconds_to_srt_time_raises v e :
  seconds_to_srt_time v = Raise e -> e = ValueError \/ e = OverflowError.
Proof.
  unfold seconds_to_srt_time, total_millis.
  destruct (Py.float_lt v (Py.float_of_Z 0)); [done|].
  destruct (Py.float_mul v (Py.float_of_Z 1000)); simpl;
    try done; intros [= <-]; auto.
Qed.

(** ** C4: the timestamp formatter *)

(** C4. For a second offset [v] that is not negative and whose product
    with 1000 is a finite float, [seconds_to_srt_time v] is [HH:MM:SS,mmm]
    for the int [m = round(v * 1000)]: [mmm] is [m mod 1000] on three
    digits, the seconds and the minutes are the carried remainders below 60
    on two digits, the hours are the whole quotient by 3600000, on two
    digits or more and never reduced modulo 24.  For every [x > 0],
    formatting [-x] gives what formatting 0 gives.  For every offset [u]
    that is not negative (and not NaN) and whose product with 1000 is not
    finite, which includes the positive infinity, that product is the
    positive infinity and [round] raises [OverflowError]; a string is
    returned exactly for a negative offset and for one whose product with
    1000 is finite. *)
Theorem seconds_to_srt_time_format (v x : spec_float) :
  Py.float_lt v (Py.float_of_Z 0) = false ->
  isfinite (Py.float_mul v (Py.float_of_Z 1000)) = true ->
  Py.float_lt (Py.float_of_Z 0) x = true ->
  (exists m,
      Py.round (Py.float_mul v (Py.float_of_Z 1000)) = Ok m /\ 0 <= m
      /\ seconds_to_srt_time v
         = Ok (hours_field (m / 3600000) +:+ ":"
               +:+ fixed_width 2 ((m / 60000) mod 60) +:+ ":"
               +:+ fixed_width 2 ((m / 1000) mod 60) +:+ ","
               +:+ fixed_width 3 (m mod 1000))
      /\ 0 <= (m / 60000) mod 60 < 60 /\ 0 <= (m / 1000) mod 60 < 60
      /\ 0 <= m mod 1000 < 1000)
  /\ seconds_to_srt_time (SFopp x) = seconds_to_srt_time (Py.float_of_Z 0)
  /\ seconds_to_srt_time (Py.float_of_Z 0) = Ok "00:00:00,000"
  /\ (forall u,
        Py.float_lt u (Py.float_of_Z 0) = false -> u <> S754_nan ->
        isfinite (Py.float_mul u (Py.float_of_Z 1000)) = false ->
        Py.float_mul u (Py.float_of_Z 1000) = S754_infinity false
        /\ seconds_to_srt_time u = Raise OverflowError)
  /\ seconds_to_srt_time (S754_infinity false) = Raise OverflowError
  /\ (forall u,
        (exists s, seconds_to_srt_time u = Ok s)
        <-> Py.float_lt u (Py.float_of_Z 0) = true
            \/ isfinite (Py.float_mul u (Py.float_of_Z 1000)) = true).
Proof.
  intros Hv Hfin Hx. split; [|split; [|split; [|split; [|split]]]].
  - destruct (round_millis_nonneg v Hv Hfin) as (m & Hm & Hpos).
    exists m. split; [exact Hm|]. split; [exact Hpos|]. split.
    + unfold seconds_to_srt_time, total_millis. rewrite Hv, Hm. simpl.
      rewrite srt_fields_shape by exact Hpos. reflexivity.
    + pose proof (Z.mod_pos_bound (m / 60000) 60).
      pose proof (Z.mod_pos_bound (m / 1000) 60).
      pose proof (Z.mod_pos_bound m 1000). lia.
  - unfold seconds_to_srt_time. rewrite total_millis_negative by exact Hx.
    reflexivity.
  - reflexivity.
  - apply infinite_product_raises.
  - reflexivity.
  - apply seconds_to_srt_time_returns.
Qed.

(** One day, one hour and half a second: the hours pass 24; and [2^1015]
    seconds, whose product with 1000 is infinite. *)
Lemma seconds_to_srt_time_format_witness :
  Py.float_lt (Py.dyadic 180001 (-1)) (Py.float_of_Z 0) = false
  /\ isfinite (Py.float_mul (Py.dyadic 180001 (-1)) (Py.float_of_Z 1000)) = true
  /\ Py.float_lt (Py.float_of_Z 0) (Py.dyadic 3 (-1)) = true
  /\ seconds_to_srt_time (Py.dyadic 180001 (-1)) = Ok "25:00:00,500"
  /\ seconds_to_srt_time (SFopp (Py.dyadic 3 (-1))) = Ok "00:00:00,000"
  /\ seconds_to_srt_time (Py.dyadic 1 1015) = Raise OverflowError.
Proof.
  destruct (seconds_to_srt_time_format (Py.dyadic 180001 (-1)) (Py.dyadic 3 (-1))
              eq_refl eq_refl eq_refl)
    as ((m & Hm & _ & Hfmt & _) & Hneg & Hzero & Hover & _).
  do 3 (split; [reflexivity|]). split; [|split].
  - vm_compute in Hm. injection Hm as <-. exact Hfmt.
  - rewrite Hneg. exact Hzero.
  - apply (Hover (Py.dyadic 1 1015)); [reflexivity | discriminate | reflexivity].
Defined.

(** A finite offset of [2^1020] seconds: its product with 1000 is the
    float infinity, on which [round] raises. *)
Lemma seconds_to_srt_time_overflow :
  Py.float_lt (Py.dyadic 1 1020) (Py.float_of_Z 0) = false
  /\ isfinite (Py.dyadic 1 1020) = true
  /\ seconds_to_srt_time (Py.dyadic 1 1020) = Raise OverflowError
  /\ ~ (forall v, Py.float_lt v (Py.float_of_Z 0) = false ->
                  exists s, seconds_to_srt_time v = Ok s).
Proof.
  split; [reflexivity|]. split; [reflexivity|]. split; [reflexivity|].
  intros Hall. destruct (Hall (Py.dyadic 1 1020) eq_refl) as [s Hs].
  discriminate Hs.
Qed.

(** ** The assembler loop *)

Lemma build_srt_loop_app pairs entries index out :
  build_srt_loop pairs entries index = Ok out ->
  out = entries ++ number_entries index (omap caption_of pairs).
Proof.
  revert entries index out.
  induction pairs as [|[frame text] rest IH]; intros entries index out; simpl.
  - intros [= <-]. by rewrite app_nil_r.
  - unfold caption_of at 1. simpl.
    destruct (String.eqb text "") eqn:Etext; [apply IH|].
    destruct (seconds_to_srt_time (start frame)) as [s|]; simpl; [|done].
    destruct (seconds_to_srt_time (end_ frame)) as [e|]; simpl; [|done].
    destruct (String.eqb s e) eqn:Ese; [apply IH|].
    intros Hout. apply IH in Hout. rewrite Hout, <- app_assoc. reflexivity.
Qed.

(** The loop ends normally exactly when every pair with a text has
    timestamps that can be formatted. *)
Lemma build_srt_loop_total pairs entries index :
  Forall (fun p => formattable p.1) pairs ->
  exists out, build_srt_loop pairs entries index = Ok out.
Proof.
  intros Hall. revert entries index.
  induction Hall as [|[frame text] rest [[s Hs] [e He]] _ IH];
    intros entries index; simpl in *.
  - eauto.
  - destruct (String.eqb text ""); [apply IH|].
    rewrite Hs, He. simpl. destruct (String.eqb s e); apply IH.
Qed.

(** The loop raises only what the formatter raises. *)
Lemma build_srt_loop_raises pairs entries index e :
  build_srt_loop pairs entries index = Raise e ->
  e = ValueError \/ e = OverflowError.
Proof.
  revert entries index.
  induction pairs as [|[frame text] rest IH]; intros entries index; simpl;
    [done|].
  destruct (String.eqb text ""); [apply IH|].
  destruct (seconds_to_srt_time (start frame)) as [s|e1] eqn:Hs; simpl.
  - destruct (seconds_to_srt_time (end_ frame)) as [s'|e2] eqn:He; simpl.
    + destruct (String.eqb s s'); apply IH.
    + intros [= <-]. by apply (seconds_to_srt_time_raises (end_ frame)).
  - intros [= <-]. by apply (seconds_to_srt_time_raises (start frame)).
Qed.

Lemma caption_of_degenerate p : degenerate p -> caption_of p = None.
Proof.
  unfold caption_of. intros [-> | (s & -> & ->)]; [reflexivity|].
  rewrite String.eqb_refl. by destruct (String.eqb p.2 "").
Qed.

Lemma caption_of_Some p s e t :
  caption_of p = Some (s, e, t) ->
  t = p.2 /\ t <> "" /\ s <> e
  /\ seconds_to_srt_time (start p.1) = Ok s
  /\ seconds_to_srt_time (end_ p.1) = Ok e.
Proof.
  unfold caption_of.
  destruct (String.eqb p.2 "") eqn:Et; [done|].
  destruct (seconds_to_srt_time (start p.1)) as [s'|]; [|done].
  destruct (seconds_to_srt_time (end_ p.1)) as [e'|]; [|done].
  destruct (String.eqb s' e') eqn:Ese; [done|].
  intros [= <- <- <-].
  apply String.eqb_neq in Et, Ese. done.
Qed.

(** A dropped pair changes nothing, whatever comes before and after it. *)
Lemma build_srt_loop_skip pre p post entries index :
  degenerate p ->
  build_srt_loop (pre ++ p :: post) entries index
  = build_srt_loop (pre ++ post) entries index.
Proof.
  intros Hp. revert entries index.
  induction pre as [|[frame text] pre IH]; intros entries index; simpl.
  - destruct p as [frame text]. destruct Hp as [Ht | (s & Hs & He)]; simpl in *.
    + by rewrite Ht.
    + destruct (String.eqb text ""); [done|].
      rewrite Hs, He. simpl. by rewrite String.eqb_refl.
  - destruct (String.eqb text ""); [apply IH|].
    destruct (seconds_to_srt_time (start frame)) as [s|]; simpl; [|done].
    destruct (seconds_to_srt_time (end_ frame)) as [e|]; simpl; [|done].
    destruct (String.eqb s e); apply IH.
Qed.

Lemma number_entries_lookup caps index i entry :
  number_entries index caps !! i = Some entry ->
  exists s e t, caps !! i = Some (s, e, t)
                /\ entry = srt_entry (index + Z.of_nat i) s e t.
Proof.
  revert index i. induction caps as [|[[s e] t] rest IH]; intros index i; simpl.
  - done.
  - destruct i as [|i]; simpl.
    + intros [= <-]. exists s, e, t. split; [done|]. f_equal. lia.
    + intros H. apply IH in H as (s' & e' & t' & Hl & ->).
      exists s', e', t'. split; [done|]. f_equal. lia.
Qed.

Lemma number_entries_length caps index :
  length (number_entries index caps) = length caps.
Proof.
  revert index. induction caps as [|[[s e] t] rest IH]; intros index; simpl;
    [done | by rewrite IH].
Qed.

Lemma zip_take_min {A B} (l : list A) (k : list B) :
  zip l k = zip (take (Nat.min (length l) (length k)) l)
                (take (Nat.min (length l) (length k)) k).
Proof.
  revert k. induction l as [|a l IH]; intros [|b k]; simpl; try done.
  f_equal. apply IH.
Qed.

Lemma zip_length_min {A B} (l : list A) (k : list B) :
  length (zip l k) = Nat.min (length l) (length k).
Proof.
  revert k. induction l as [|a l IH]; intros [|b k]; simpl; try done.
  f_equal. apply IH.
Qed.

Lemma zip_app_same {A B} (l1 l2 : list A) (k1 k2 : list B) :
  length l1 = length k1 -> zip (l1 ++ l2) (k1 ++ k2) = zip l1 k1 ++ zip l2 k2.
Proof.
  revert k1. induction l1 as [|a l1 IH]; intros [|b k1]; simpl; try done.
  intros [= Hlen]. f_equal. by apply IH.
Qed.

Lemma srt_entries_spec frames texts entries :
  srt_entries frames texts = Ok entries ->
  entries = number_entries 1 (omap caption_of (zip frames texts)).
Proof. intros H. by apply build_srt_loop_app in H. Qed.

Lemma srt_entries_origin frames texts entries i entry :
  srt_entries frames texts = Ok entries ->
  entries !! i = Some entry ->
  exists frame text s e,
    (frame, text) ∈ zip frames texts
    /\ seconds_to_srt_time (start frame) = Ok s
    /\ seconds_to_srt_time (end_ frame) = Ok e
    /\ entry = srt_entry (Z.of_nat i + 1) s e text
    /\ text <> "" /\ s <> e.
Proof.
  intros Hrun Hi. apply srt_entries_spec in Hrun. subst entries.
  apply number_entries_lookup in Hi as (s & e & t & Hcap & ->).
  apply list_elem_of_lookup_2, list_elem_of_omap in Hcap
    as ([frame text] & Hin & Hcap).
  apply caption_of_Some in Hcap as (-> & Ht & Hse & Hs & He). simpl in *.
  exists frame, text, s, e. repeat split; try done. f_equal. lia.
Qed.

(** ** C1: no degenerate caption *)

(** C1. Every entry that [build_srt] emits comes from a (frame, text)
    pair of the zipped inputs whose text is not empty and whose formatted
    start differs from its formatted end; and a pair with an empty text
    or with equal formatted timestamps is skipped: the entries, and so the
    output, are those of the input without that pair. *)
Theorem build_srt_no_degenerate_entry frames texts entries :
  srt_entries frames texts = Ok entries ->
  (forall entry, entry ∈ entries ->
     exists index frame text s e,
       (frame, text) ∈ zip frames texts
       /\ seconds_to_srt_time (start frame) = Ok s
       /\ seconds_to_srt_time (end_ frame) = Ok e
       /\ entry = srt_entry index s e text
       /\ text <> "" /\ s <> e)
  /\ (forall f1 f f2 t1 t t2,
        frames = f1 ++ f :: f2 -> texts = t1 ++ t :: t2 ->
        length f1 = length t1 -> degenerate (f, t) ->
        srt_entries (f1 ++ f2) (t1 ++ t2) = Ok entries
        /\ build_srt (f1 ++ f2) (t1 ++ t2) = build_srt frames texts).
Proof.
  intros Hrun. split.
  - intros entry Hin. apply list_elem_of_lookup in Hin as [i Hi].
    destruct (srt_entries_origin _ _ _ _ _ Hrun Hi)
      as (frame & text & s & e & H).
    exists (Z.of_nat i + 1), frame, text, s, e. exact H.
  - intros f1 f f2 t1 t t2 -> -> Hlen Hdeg.
    assert (Heq : srt_entries (f1 ++ f2) (t1 ++ t2)
                  = srt_entries (f1 ++ f :: f2) (t1 ++ t :: t2)).
    { unfold srt_entries. rewrite !zip_app_same by done. simpl.
      symmetry. by apply build_srt_loop_skip. }
    split; [by rewrite Heq|]. unfold build_srt. by rewrite Heq.
Qed.

Lemma build_srt_no_degenerate_entry_witness :
  srt_entries scenario_frames scenario_texts = Ok [scenario_entry]
  /\ srt_entries (take 1 scenario_frames) (take 1 scenario_texts)
     = Ok [scenario_entry].
Proof.
  split; [reflexivity|].
  destruct (build_srt_no_degenerate_entry scenario_frames scenario_texts
              [scenario_entry] eq_refl) as [_ Hskip].
  apply (Hskip (take 1 scenario_frames) (mkFrameInfo (Py.dyadic 3 (-1)) (Py.dyadic 3 (-1)))
           [] (take 1 scenario_texts) "WORLD" []); try reflexivity.
  right. exists "00:00:01,500". split; reflexivity.
Defined.

(** ** C2: sequence numbers *)

Lemma first_line_app (a rest : string) :
  (forall c, In c (list_ascii_of_string a) -> Ascii.eqb c "010" = false) ->
  first_line (a +:+ newline +:+ rest) = a.
Proof.
  induction a as [|c a IH]; simpl; intros Hnl; [reflexivity|].
  rewrite (Hnl c) by (by left). f_equal. apply IH. intros c' Hc'. apply Hnl.
  by right.
Qed.

Lemma string_of_uint_no_newline d c :
  In c (list_ascii_of_string (NilEmpty.string_of_uint d)) ->
  Ascii.eqb c "010" = false.
Proof.
  induction d; simpl; try done; intros [<- | Hin]; try done; by apply IHd.
Qed.

Lemma str_no_newline n c :
  In c (list_ascii_of_string (Py.str n)) -> Ascii.eqb c "010" = false.
Proof.
  unfold Py.str, NilZero.string_of_int, NilZero.string_of_uint.
  destruct (Z.to_int n) as [d|d]; destruct d; simpl;
    repeat (intros [<- | H]; [done | revert H]);
    try done; apply string_of_uint_no_newline.
Qed.

Lemma entry_number_srt_entry index s e t :
  entry_number (srt_entry index s e t) = Some index.
Proof.
  unfold entry_number, srt_entry.
  rewrite first_line_app by apply str_no_newline.
  unfold Py.str.
  destruct index as [|p|p]; simpl Z.to_int.
  - reflexivity.
  - rewrite NilZero.isi.
    + simpl. pose proof (DecimalPos.Unsigned.of_to p) as Hp.
      unfold Z.of_uint. rewrite Hp. reflexivity.
    + intros [= H]. by apply DecimalPos.Unsigned.to_uint_nonnil in H.
    + done.
  - rewrite NilZero.isi.
    + simpl. pose proof (DecimalPos.Unsigned.of_to p) as Hp.
      unfold Z.of_uint. rewrite Hp. reflexivity.
    + done.
    + intros [= H]. by apply DecimalPos.Unsigned.to_uint_nonnil in H.
Qed.

(** C2. The entry emitted at position [i] (counted from 0) carries the
    sequence number [i + 1], whatever pairs were dropped before it: it is
    the block of some input pair with that number, and the number read
    back from its first line is [i + 1].  There are as many entries as
    pairs that are kept. *)
Theorem build_srt_sequence_numbers frames texts entries :
  srt_entries frames texts = Ok entries ->
  (forall i entry, entries !! i = Some entry ->
     entry_number entry = Some (Z.of_nat i + 1)
     /\ exists frame text s e,
          (frame, text) ∈ zip frames texts
          /\ seconds_to_srt_time (start frame) = Ok s
          /\ seconds_to_srt_time (end_ frame) = Ok e
          /\ entry = srt_entry (Z.of_nat i + 1) s e text)
  /\ length entries = length (omap caption_of (zip frames texts)).
Proof.
  intros Hrun. split.
  - intros i entry Hi.
    destruct (srt_entries_origin _ _ _ _ _ Hrun Hi)
      as (frame & text & s & e & Hin & Hs & He & -> & _).
    split; [apply entry_number_srt_entry|].
    exists frame, text, s, e. done.
  - apply srt_entries_spec in Hrun. subst entries.
    apply number_entries_length.
Qed.

Lemma build_srt_sequence_numbers_witness :
  srt_entries five_frames three_texts
  = Ok [srt_entry 1 "00:00:00,000" "00:00:01,000" "a";
        srt_entry 2 "00:00:02,000" "00:00:03,000" "c"]
  /\ entry_number (srt_entry 2 "00:00:02,000" "00:00:03,000" "c") = Some 2.
Proof.
  split; [reflexivity|].
  destruct (build_srt_sequence_numbers five_frames three_texts _ eq_refl)
    as [Hnum _].
  exact (proj1 (Hnum 1%nat _ eq_refl)).
Defined.

(** ** The recognition loop *)

Lemma ocr_step_run w language image_path t :
  catch (ocr_image w image_path language)
    (fun e => match e with
              | CalledProcessError _ err =>
                  Some (bind (log ("[error] OCR failed on " +:+ image_path
                                   +:+ ": " +:+ Py.strip err))
                          (fun _ => ret ""))
              | _ => None
              end) t
  = match os_run w (t ++ [EPrint ("[cmd] " +:+ Py.join " " (ocr_command image_path language))])
            (ocr_command image_path language) with
    | Ok out =>
        (Ok (Py.join " " (Py.split (Py.strip out))),
         t ++ command_effects (ocr_command image_path language))
    | Raise (CalledProcessError cmd err) =>
        (Ok "",
         t ++ command_effects (ocr_command image_path language)
           ++ [ocr_failure_line image_path err])
    | Raise e => (Raise e, t ++ command_effects (ocr_command image_path language))
    end.
Proof.
  unfold catch, ocr_image, bind, run_command, bind, log, perform, ret,
    command_effects, ocr_command, ocr_failure_line.
  simpl. rewrite <- !app_assoc. simpl.
  destruct (os_run w _ _) as [out|[]]; simpl; rewrite <- ?app_assoc; reflexivity.
Qed.

Lemma ocr_loop_cons w language image_path rest texts t :
  ocr_loop w language (image_path :: rest) texts t
  = match os_run w (t ++ [EPrint ("[cmd] " +:+ Py.join " " (ocr_command image_path language))])
            (ocr_command image_path language) with
    | Ok out =>
        ocr_loop w language rest
          (texts ++ [Py.join " " (Py.split (Py.strip out))])
          (t ++ command_effects (ocr_command image_path language))
    | Raise (CalledProcessError cmd err) =>
        ocr_loop w language rest (texts ++ [""])
          (t ++ command_effects (ocr_command image_path language)
             ++ [ocr_failure_line image_path err])
    | Raise e => (Raise e, t ++ command_effects (ocr_command image_path language))
    end.
Proof.
  change (ocr_loop w language (image_path :: rest) texts t)
    with (bind (catch (ocr_image w image_path language)
                  (fun e => match e with
                            | CalledProcessError _ err =>
                                Some (bind (log ("[error] OCR failed on " +:+ image_path
                                                 +:+ ": " +:+ Py.strip err))
                                        (fun _ => ret ""))
                            | _ => None
                            end))
            (fun text => ocr_loop w language rest (texts ++ [text])) t).
  unfold bind at 1. rewrite ocr_step_run.
  destruct (os_run w _ _) as [out|[]]; reflexivity.
Qed.

Lemma ocr_loop_app w language pre post texts t :
  ocr_loop w language (pre ++ post) texts t
  = match ocr_loop w language pre texts t with
    | (Ok texts1, t1) => ocr_loop w language post texts1 t1
    | (Raise e, t1) => (Raise e, t1)
    end.
Proof.
  revert texts t. induction pre as [|image pre IH]; intros texts t.
  - reflexivity.
  - rewrite <- app_comm_cons, !ocr_loop_cons.
    destruct (os_run w _ _) as [out|[]]; try reflexivity; apply IH.
Qed.

(** The loop adds one text for each image and only adds to the trace. *)
Lemma ocr_loop_extends w language images texts t texts' t' :
  ocr_loop w language images texts t = (Ok texts', t') ->
  exists more evs,
    texts' = texts ++ more /\ length more = length images /\ t' = t ++ evs.
Proof.
  revert texts t. induction images as [|image images IH]; intros texts t.
  - intros [= <- <-]. exists [], []. by rewrite !app_nil_r.
  - rewrite ocr_loop_cons.
    destruct (os_run w _ _) as [out|[]]; try discriminate;
      intros (more & evs & -> & Hlen & ->)%IH;
      rewrite <- !app_assoc; eexists (_ :: more), _;
      (split; [reflexivity|]); (split; [simpl; by rewrite Hlen | reflexivity]).
Qed.

Lemma ocr_loop_total w language images texts t :
  recoverable w -> exists texts' t', ocr_loop w language images texts t = (Ok texts', t').
Proof.
  intros Hrec. revert texts t.
  induction images as [|image images IH]; intros texts t.
  - simpl. unfold ret. eauto.
  - rewrite ocr_loop_cons.
    pose proof (Hrec (t ++ [EPrint ("[cmd] " +:+ Py.join " " (ocr_command image language))])
                  (ocr_command image language)) as H.
    destruct (os_run w _ _) as [out|[]]; try done; apply IH.
Qed.

(** ** C3: sequences of different lengths *)

Lemma omap_cons {A B} (f : A -> option B) x l :
  omap f (x :: l) = match f x with Some y => y :: omap f l | None => omap f l end.
Proof. reflexivity. Qed.

Lemma pair_at_cons frame frames text texts k n :
  omap (pair_at (frame :: frames) (text :: texts)) (seq (S k) n)
  = omap (pair_at frames texts) (seq k n).
Proof.
  revert k. induction n as [|n IH]; intros k; [done|].
  simpl seq. rewrite !omap_cons, IH. done.
Qed.

(** The zipped pairs are the pairs at the first positions. *)
Lemma zip_first_pairs frames texts :
  zip frames texts
  = first_pairs (Nat.min (length frames) (length texts)) frames texts.
Proof.
  unfold first_pairs. revert texts.
  induction frames as [|frame frames IH]; intros [|text texts]; try done.
  simpl length. simpl Nat.min. simpl seq. rewrite omap_cons, pair_at_cons.
  simpl. by rewrite <- IH.
Qed.

(** C3. [build_srt] processes the pairs at the positions 0 to
    [min(len(frames), len(texts)) - 1], each frame with the text at the same
    position, and nothing else: its entries are the numbered blocks of
    these pairs and its output is assembled from them; the result is the
    same for any two sequences that agree with [frames] and [texts] on
    these positions, whatever comes after; it returns normally as soon as
    the frames at these positions can be formatted, for any two lengths,
    and raises nothing but the exceptions of the rounding of a timestamp;
    with 5 frames and 3 texts the result is that of the first 3 frames with
    the 3 texts.  [process_job] passes it [frames[:count]] and [count]
    texts. *)
Theorem build_srt_min_length frames texts :
  let n := Nat.min (length frames) (length texts) in
  let entries := number_entries 1 (omap caption_of (first_pairs n frames texts)) in
  length (first_pairs n frames texts) = n
  /\ (forall out, build_srt frames texts = Ok out ->
        srt_entries frames texts = Ok entries
        /\ out = Py.strip (Py.join newline entries)
                 +:+ (match entries with [] => "" | _ => newline end))
  /\ build_srt frames texts = build_srt (take n frames) (take n texts)
  /\ (forall frames' texts',
        Nat.min (length frames') (length texts') = n ->
        take n frames' = take n frames -> take n texts' = take n texts ->
        build_srt frames' texts' = build_srt frames texts)
  /\ length (zip frames texts) = n
  /\ (Forall formattable (take n frames) ->
      exists out, build_srt frames texts = Ok out)
  /\ (forall e, build_srt frames texts = Raise e ->
        e = ValueError \/ e = OverflowError)
  /\ (length frames = 5%nat -> length texts = 3%nat ->
      build_srt frames texts = build_srt (take 3 frames) texts)
  /\ (forall w language images t recognized t',
        let count := Nat.min (length images) (length frames) in
        ocr_loop w language (take count images) [] t = (Ok recognized, t') ->
        length recognized = count /\ length (take count frames) = count).
Proof.
  intros n entries.
  assert (Hcut : build_srt frames texts = build_srt (take n frames) (take n texts))
    by (unfold build_srt, srt_entries; by rewrite (zip_take_min frames texts)).
  split; [|split; [|split; [|split; [|split; [|split; [|split; [|split]]]]]]];
    cycle 8.
  { intros w language images t recognized t' count Hrun.
    apply ocr_loop_extends in Hrun as (more & evs & -> & Hlen & _).
    simpl. rewrite Hlen, !length_take. lia. }
  - unfold n. rewrite <- zip_first_pairs. apply zip_length_min.
  - intros out Hrun. unfold build_srt in Hrun.
    destruct (srt_entries frames texts) as [entries'|] eqn:Hent; [|done].
    apply srt_entries_spec in Hent as Hspec.
    rewrite zip_first_pairs in Hspec. fold n in Hspec. fold entries in Hspec.
    subst entries'. simpl in Hrun. by injection Hrun as <-.
  - exact Hcut.
  - intros frames' texts' Hn Hf Ht. rewrite Hcut.
    unfold build_srt at 1, srt_entries.
    rewrite (zip_take_min frames' texts'), Hn, Hf, Ht. done.
  - apply zip_length_min.
  - intros Hall. unfold build_srt, srt_entries.
    destruct (build_srt_loop_total (zip frames texts) [] 1) as [entries' ->].
    + rewrite (zip_take_min frames texts). fold n.
      apply Forall_forall. intros [frame text] Hin. simpl.
      rewrite Forall_forall in Hall. apply Hall.
      apply elem_of_zip_l in Hin. done.
    + simpl. eauto.
  - intros e. unfold build_srt, srt_entries.
    destruct (build_srt_loop (zip frames texts) [] 1) as [entries'|e'] eqn:Hloop;
      [done|].
    intros [= <-]. by apply build_srt_loop_raises in Hloop.
  - intros Hf Ht. unfold build_srt, srt_entries.
    rewrite (zip_take_min frames texts), Hf, Ht. simpl Nat.min.
    by rewrite (take_ge texts) by lia.
Qed.

Lemma build_srt_min_length_witness :
  length five_frames = 5%nat /\ length three_texts = 3%nat
  /\ first_pairs 3 five_frames three_texts
     = [(mkFrameInfo (Py.float_of_Z 0) (Py.float_of_Z 1), "a");
        (mkFrameInfo (Py.float_of_Z 1) (Py.float_of_Z 2), "");
        (mkFrameInfo (Py.float_of_Z 2) (Py.float_of_Z 3), "c")]
  /\ build_srt five_frames three_texts = build_srt (take 3 five_frames) three_texts
  /\ build_srt five_frames three_texts
     = Ok ("1" +:+ newline +:+ "00:00:00,000 --> 00:00:01,000" +:+ newline
           +:+ "a" +:+ newline +:+ newline
           +:+ "2" +:+ newline +:+ "00:00:02,000 --> 00:00:03,000" +:+ newline
           +:+ "c" +:+ newline).
Proof.
  destruct (build_srt_min_length five_frames three_texts)
    as (_ & Hout & _ & _ & _ & Htotal & _ & Hfive & _).
  split; [reflexivity|]. split; [reflexivity|]. split; [reflexivity|].
  split; [exact (Hfive eq_refl eq_refl)|].
  destruct Htotal as [out Hrun].
  { simpl. repeat constructor; eexists; reflexivity. }
  rewrite Hrun. f_equal. apply Hout in Hrun as [_ ->]. reflexivity.
Defined.

(** ** Strings: strip, split and join *)

Lemma append_nil_l (a : string) : "" +:+ a = a.
Proof. reflexivity. Qed.

Lemma append_cons (x : ascii) (a b : string) :
  String x a +:+ b = String x (a +:+ b).
Proof. reflexivity. Qed.

(** [String.append] is kept folded by [simpl]; these two equations unfold
    it on a constructor. *)
Ltac app_simpl := rewrite ?append_nil_l, ?append_cons.

Lemma append_assoc (a b c : string) : (a +:+ b) +:+ c = a +:+ (b +:+ c).
Proof. induction a as [|x a IH]; app_simpl; [done | by f_equal]. Qed.

Lemma rstrip_snoc_nonspace s c :
  Py.isspace c = false -> Py.rstrip (s +:+ String c "") = s +:+ String c "".
Proof.
  intros Hc. induction s as [|a s IH]; app_simpl; simpl.
  - by rewrite Hc.
  - rewrite IH. destruct s; app_simpl; done.
Qed.

Lemma rstrip_app_newline s : Py.rstrip (s +:+ newline) = Py.rstrip s.
Proof.
  induction s as [|a s IH]; app_simpl; simpl; [reflexivity|]. by rewrite IH.
Qed.

Lemma ends_nonspace_nonempty s : ends_nonspace s -> s <> "".
Proof. intros (body & c & -> & _). destruct body; app_simpl; done. Qed.

Lemma ends_nonspace_app a s : ends_nonspace s -> ends_nonspace (a +:+ s).
Proof.
  intros (body & c & -> & Hc). exists (a +:+ body), c.
  by rewrite append_assoc.
Qed.

Lemma split_aux_ends cur s :
  cur = "" \/ ends_nonspace cur -> Forall ends_nonspace (Py.split_aux cur s).
Proof.
  revert cur. induction s as [|c s IH]; intros cur Hcur; simpl.
  - destruct (String.eqb_spec cur ""); [constructor|].
    constructor; [|constructor]. by destruct Hcur.
  - destruct (Py.isspace c) eqn:Hc.
    + destruct (String.eqb_spec cur "").
      * apply IH. by left.
      * constructor; [by destruct Hcur | apply IH; by left].
    + apply IH. right. by exists cur, c.
Qed.

(** What holds of the last part, and of every text with something put in
    front of it, holds of the joined text. *)
Lemma join_last (P : string -> Prop) sep ws :
  (forall a s, P s -> P (a +:+ s)) ->
  ws <> [] -> Forall P ws -> P (Py.join sep ws).
Proof.
  intros Hpre. induction ws as [|p ws IH]; [done|]. intros _ Hall.
  apply Forall_cons in Hall as [Hp Hws].
  destruct ws as [|q ws]; [exact Hp|].
  change (P (p +:+ sep +:+ Py.join sep (q :: ws))).
  do 2 apply Hpre. by apply IH.
Qed.

Lemma normalized_ends text :
  normalized text -> text <> "" -> ends_nonspace text.
Proof.
  unfold normalized. intros Hnorm Hne.
  destruct (Py.split text) as [|p ws] eqn:Hsplit.
  - simpl in Hnorm. congruence.
  - rewrite <- Hnorm. apply join_last; [apply ends_nonspace_app | done |].
    rewrite <- Hsplit. apply split_aux_ends. by left.
Qed.

(** Stripping a text that begins with a character that is not
    whitespace and ends with one followed by a line feed removes that line
    feed only. *)
Lemma strip_block b rest body c :
  Py.isspace b = false -> Py.isspace c = false ->
  String b rest = (body +:+ String c "") +:+ newline ->
  Py.strip (String b rest) +:+ newline = String b rest.
Proof.
  intros Hb Hc Heq. unfold Py.strip. simpl Py.lstrip. rewrite Hb.
  rewrite Heq, rstrip_app_newline, rstrip_snoc_nonspace by done. reflexivity.
Qed.

Lemma ends_line_app a s : ends_line s -> ends_line (a +:+ s).
Proof.
  intros (body & c & -> & Hc). exists (a +:+ body), c.
  by rewrite !append_assoc.
Qed.

Lemma srt_entry_ends index s e t :
  ends_nonspace t -> ends_line (srt_entry index s e t).
Proof.
  intros (body & c & -> & Hc). unfold srt_entry.
  exists (Py.str index +:+ newline +:+ s +:+ " --> " +:+ e +:+ newline +:+ body), c.
  split; [|done]. by rewrite !append_assoc.
Qed.

Lemma number_entries_ends index caps :
  Forall (fun cap : caption => ends_nonspace cap.2) caps ->
  Forall ends_line (number_entries index caps).
Proof.
  intros Hall. revert index.
  induction Hall as [|[[s e] t] caps Ht _ IH]; intros index; simpl;
    constructor; [by apply srt_entry_ends | apply IH].
Qed.

Lemma join_entries_ends index caps :
  caps <> [] ->
  Forall (fun cap : caption => ends_nonspace cap.2) caps ->
  ends_line (Py.join newline (number_entries index caps)).
Proof.
  intros Hne Hall. apply join_last; [apply ends_line_app | |].
  - destruct caps as [|[[s e] t] caps]; done.
  - by apply number_entries_ends.
Qed.

Lemma join_entries_head caps :
  caps <> [] ->
  exists rest, Py.join newline (number_entries 1 caps) = String "1" rest.
Proof.
  destruct caps as [|[[s e] t] caps]; [done|]. intros _.
  destruct caps as [|cap caps]; simpl; eauto.
  destruct cap as [[s' e'] t']. simpl. eauto.
Qed.

(** *** The texts of the recognition are normalized *)

Lemma append_nil_r (a : string) : a +:+ "" = a.
Proof. induction a as [|x a IH]; app_simpl; [done | by f_equal]. Qed.

Lemma no_space_snoc cur c :
  no_space cur = true -> Py.isspace c = false ->
  no_space (cur +:+ String c "") = true.
Proof.
  intros Hcur Hc. induction cur as [|a cur IH]; app_simpl; simpl in *.
  - by rewrite Hc.
  - apply andb_prop in Hcur as [-> Hcur]. by apply IH.
Qed.

Lemma split_aux_words cur s :
  no_space cur = true ->
  Forall (fun word => word <> "" /\ no_space word = true) (Py.split_aux cur s).
Proof.
  revert cur. induction s as [|c s IH]; intros cur Hcur; simpl.
  - destruct (String.eqb_spec cur ""); repeat constructor; done.
  - destruct (Py.isspace c) eqn:Hc.
    + destruct (String.eqb_spec cur ""); [by apply IH|].
      constructor; [done | by apply IH].
    + apply IH. by apply no_space_snoc.
Qed.

Lemma split_aux_prefix word cur s :
  no_space word = true ->
  Py.split_aux cur (word +:+ s) = Py.split_aux (cur +:+ word) s.
Proof.
  revert cur. induction word as [|c word IH]; intros cur Hword; app_simpl.
  - by rewrite append_nil_r.
  - simpl in Hword. apply andb_prop in Hword as [Hc Hword].
    apply negb_true_iff in Hc. simpl. rewrite Hc, IH by done.
    by rewrite append_assoc.
Qed.

Lemma split_aux_space cur s :
  Py.split_aux cur (String " " s)
  = if String.eqb cur "" then Py.split_aux "" s else cur :: Py.split_aux "" s.
Proof. reflexivity. Qed.

Lemma split_join words :
  Forall (fun word => word <> "" /\ no_space word = true) words ->
  Py.split (Py.join " " words) = words.
Proof.
  unfold Py.split. induction 1 as [|word words [Hne Hword] Hwords IH];
    [reflexivity|].
  destruct words as [|word' words].
  - simpl Py.join. rewrite <- (append_nil_r word) at 1.
    rewrite split_aux_prefix by done. app_simpl. simpl.
    by destruct (String.eqb_spec word "").
  - change (Py.join " " (word :: word' :: words))
      with (word +:+ String " " (Py.join " " (word' :: words))).
    rewrite split_aux_prefix by done. app_simpl.
    rewrite split_aux_space.
    destruct (String.eqb_spec word ""); [done|]. by rewrite IH.
Qed.

(** What [ocr_image] returns is normalized, and so is the empty text of a
    failure. *)
Lemma normalized_join_split out : normalized (Py.join " " (Py.split out)).
Proof.
  unfold normalized. rewrite split_join; [done|].
  by apply split_aux_words.
Qed.

Lemma ocr_loop_normalized w language images texts t texts' t' :
  Forall normalized texts ->
  ocr_loop w language images texts t = (Ok texts', t') ->
  Forall normalized texts'.
Proof.
  revert texts t. induction images as [|image images IH]; intros texts t Hall.
  - by intros [= <- _].
  - rewrite ocr_loop_cons.
    destruct (os_run w _ _) as [out|[]]; try discriminate; apply IH;
      (apply Forall_app; split; [done|]); repeat constructor.
    apply normalized_join_split.
Qed.

(** ** C5: the serialized captions *)

(** The block that the loop appends is the block of the design
    document. *)
Lemma srt_entry_block index s e t :
  srt_entry index s e t = spec_block index (s, e, t).
Proof.
  unfold srt_entry, spec_block, text_line, newline. simpl.
  by rewrite !append_assoc.
Qed.

Lemma join_number_entries index caps :
  Py.join newline (number_entries index caps) = spec_serialize index caps.
Proof.
  revert index. induction caps as [|[[s e] t] caps IH]; intros index; [done|].
  destruct caps as [|cap caps].
  - simpl. apply srt_entry_block.
  - specialize (IH (index + 1)). destruct cap as [[s' e'] t'].
    change (srt_entry index s e t +:+ newline
            +:+ Py.join newline (number_entries (index + 1) ((s', e', t') :: caps))
            = spec_block index (s, e, t) +:+ text_line ""
              +:+ spec_serialize (index + 1) ((s', e', t') :: caps)).
    rewrite srt_entry_block.
    exact (f_equal (fun x => spec_block index (s, e, t) +:+ newline +:+ x) IH).
Qed.

Lemma islinebreak_isspace c : Py.islinebreak c = true -> Py.isspace c = true.
Proof. by destruct c as [[] [] [] [] [] [] [] []]. Qed.

Lemma no_linebreak_app a b :
  no_linebreak (a +:+ b) = no_linebreak a && no_linebreak b.
Proof.
  induction a as [|x a IH]; app_simpl; [done|].
  cbn [no_linebreak]. by rewrite IH, andb_assoc.
Qed.

Lemma no_space_no_linebreak word : no_space word = true -> no_linebreak word = true.
Proof.
  induction word as [|c word IH]; [done|]. cbn [no_space no_linebreak].
  intros [Hc Hw]%andb_prop. rewrite IH by done. rewrite andb_true_r.
  apply negb_true_iff in Hc. apply negb_true_iff.
  destruct (Py.islinebreak c) eqn:Hl; [|done].
  apply islinebreak_isspace in Hl. congruence.
Qed.

(** A normalized text is on one line. *)
Lemma normalized_no_linebreak text : normalized text -> no_linebreak text = true.
Proof.
  unfold normalized. intros <-.
  pose proof (split_aux_words "" text eq_refl) as Hwords.
  fold (Py.split text) in Hwords.
  induction Hwords as [|word words [_ Hw] _ IH]; [done|].
  destruct words as [|word' words]; [by apply no_space_no_linebreak|].
  change (no_linebreak (word +:+ " " +:+ Py.join " " (word' :: words)) = true).
  rewrite !no_linebreak_app, IH, no_space_no_linebreak by done. done.
Qed.

(** C5. With recognized texts that are normalized, the output of
    [build_srt] is the serialization of the design document for the pairs
    that are kept, in their order: each one as the three lines
    [number\nstart --> end\ntext\n], numbered from 1, with one empty line
    between two consecutive blocks and nothing after the last one.  Every
    text in it is not empty, is on one line and ends with a character that
    is not whitespace, so that the only empty lines are those between the
    blocks.  The output is the empty string when no pair is kept, and
    otherwise it ends with a character that is not whitespace followed by
    one line feed. *)
Theorem build_srt_serialization frames texts out :
  Forall normalized texts ->
  build_srt frames texts = Ok out ->
  let caps := omap caption_of (zip frames texts) in
  out = spec_serialize 1 caps
  /\ Forall (fun cap : caption =>
               cap.2 <> "" /\ no_linebreak cap.2 = true /\ ends_nonspace cap.2)
       caps
  /\ out = Py.join newline (number_entries 1 caps)
  /\ (caps = [] -> out = "")
  /\ (caps <> [] -> ends_line out).
Proof.
  intros Hnorm Hrun caps. unfold build_srt in Hrun.
  destruct (srt_entries frames texts) as [entries|] eqn:Hent; [|done].
  pose proof (srt_entries_spec _ _ _ Hent) as Hspec. fold caps in Hspec.
  simpl in Hrun. injection Hrun as <-.
  assert (Htexts : Forall (fun cap : caption =>
                             cap.2 <> "" /\ no_linebreak cap.2 = true
                             /\ ends_nonspace cap.2) caps).
  { apply Forall_forall. intros [[s e] t] Hin.
    apply list_elem_of_omap in Hin as ([frame text] & Hin & Hcap).
    apply caption_of_Some in Hcap as (-> & Hne & _). simpl in *.
    assert (Ht : normalized text).
    { rewrite Forall_forall in Hnorm. apply Hnorm.
      by apply elem_of_zip_r in Hin. }
    split; [done|]. split; [by apply normalized_no_linebreak|].
    by apply normalized_ends. }
  assert (Hends : Forall (fun cap : caption => ends_nonspace cap.2) caps)
    by (eapply Forall_impl; [exact Htexts|]; by intros cap (_ & _ & H)).
  assert (Hjoin : Py.strip (Py.join newline entries)
                  +:+ match entries with [] => "" | _ => newline end
                  = Py.join newline (number_entries 1 caps)).
  { destruct caps as [|cap caps'] eqn:Hcaps; [by subst entries|].
    assert (Hne : cap :: caps' <> []) by done.
    destruct (join_entries_head (cap :: caps') Hne) as [rest Hhead].
    destruct (join_entries_ends 1 (cap :: caps') Hne Hends)
      as (body & c & Hj & Hc).
    subst entries. destruct cap as [[s e] t].
    change (match number_entries 1 ((s, e, t) :: caps') with
            | [] => "" | _ => newline end) with newline.
    rewrite Hhead. apply (strip_block _ _ body c); [done | done |].
    by rewrite <- Hhead. }
  rewrite Hjoin. split; [apply join_number_entries|]. split; [done|].
  split; [done|]. split.
  - by intros ->.
  - intros Hne. by apply join_entries_ends.
Qed.

Lemma build_srt_serialization_witness :
  Forall normalized dialogue_texts
  /\ build_srt dialogue_frames dialogue_texts
     = Ok ("1" +:+ newline +:+ "00:00:00,000 --> 00:00:01,500" +:+ newline
           +:+ "HELLO WORLD" +:+ newline
           +:+ newline
           +:+ "2" +:+ newline +:+ "00:00:02,000 --> 01:01:40,000" +:+ newline
           +:+ "GOOD BYE" +:+ newline).
Proof.
  assert (Hnorm : Forall normalized dialogue_texts)
    by (repeat constructor).
  split; [exact Hnorm|].
  destruct (build_srt dialogue_frames dialogue_texts) as [out|e] eqn:Hrun;
    [|vm_compute in Hrun; discriminate Hrun].
  destruct (build_srt_serialization dialogue_frames dialogue_texts out Hnorm Hrun)
    as [-> _].
  reflexivity.
Defined.

(** ** Language resolution *)

Lemma member_spec x l : member x l = true <-> x ∈ l.
Proof.
  unfold member. rewrite existsb_exists, list_elem_of_In. split.
  - intros (y & Hin & Heq). apply String.eqb_eq in Heq. by subst.
  - intros Hin. exists x. split; [done | apply String.eqb_refl].
Qed.

Lemma member_false x l : member x l = false <-> x ∉ l.
Proof.
  rewrite <- member_spec. destruct (member x l); split; congruence.
Qed.

(** The run of [list_tesseract_languages]: one command, and the list read
    from its output, or its exception. *)
Lemma list_tesseract_languages_run w t :
  list_tesseract_languages w t
  = (match os_run w (t ++ [EPrint "[cmd] tesseract --list-langs"])
             ["tesseract"; "--list-langs"] with
     | Ok out =>
         Ok (match Py.splitlines (Py.strip out) with
             | [] => []
             | _ :: rest =>
                 map Py.strip (filter (fun line => nonblank line = true) rest)
             end)
     | Raise FileNotFoundError => Raise (JobError "tesseract not found in PATH")
     | Raise e => Raise e
     end,
     t ++ command_effects ["tesseract"; "--list-langs"]).
Proof.
  unfold list_tesseract_languages, bind, catch, run_command, bind, log,
    perform, command_effects.
  simpl. rewrite <- app_assoc. simpl.
  destruct (os_run w _ _) as [out|[]]; try reflexivity.
  destruct (Py.splitlines (Py.strip out)); reflexivity.
Qed.

(** No installed language is the empty string. *)
Lemma list_tesseract_languages_nonempty w t available t1 :
  list_tesseract_languages w t = (Ok available, t1) -> "" ∉ available.
Proof.
  rewrite list_tesseract_languages_run. intros [= Hav _].
  destruct (os_run w _ _) as [out|[]]; try discriminate.
  injection Hav as <-.
  destruct (Py.splitlines (Py.strip out)) as [|first rest]; [apply not_elem_of_nil|].
  intros Hin. apply list_elem_of_fmap in Hin as (line & Hline & Hin).
  apply list_elem_of_filter in Hin as [Hnb _].
  unfold nonblank in Hnb. rewrite <- Hline in Hnb. discriminate.
Qed.

Lemma resolve_language_run w requested t available t1 :
  list_tesseract_languages w t = (Ok available, t1) ->
  resolve_language w requested t
  = if member (normalize_language requested) available
    then (Ok (normalize_language requested, available), t1)
    else if member DEFAULT_LANG available
         then (Ok (DEFAULT_LANG, available),
               t1 ++ [fallback_warning (normalize_language requested)])
         else (Raise (JobError "tesseract language data missing (eng not installed)"),
               t1 ++ [fallback_warning (normalize_language requested)]).
Proof.
  intros Hlist. unfold resolve_language, bind. rewrite Hlist.
  destruct (member (normalize_language requested) available); [reflexivity|].
  unfold log, perform, fallback_warning.
  destruct (member DEFAULT_LANG available); reflexivity.
Qed.

(** ** C6: language resolution *)

(** C6. Once the engine has answered with its installed languages,
    [resolve_language] returns the normalized requested tag when that tag
    is installed, without any warning, so that a tag which normalization
    leaves unchanged and which is installed is returned as it is; when the
    tag is not installed it prints the warning and returns ["eng"] if
    ["eng"] is installed; it raises [JobError], after the warning, exactly
    when neither the tag nor ["eng"] is installed; and the tag it returns
    is the normalized one exactly when that one is installed. *)
Theorem resolve_language_spec w requested t available t1 :
  list_tesseract_languages w t = (Ok available, t1) ->
  let normalized := normalize_language requested in
  (normalized ∈ available ->
   resolve_language w requested t = (Ok (normalized, available), t1))
  /\ (normalized ∉ available -> DEFAULT_LANG ∈ available ->
      resolve_language w requested t
      = (Ok (DEFAULT_LANG, available), t1 ++ [fallback_warning normalized]))
  /\ ((exists e t', resolve_language w requested t = (Raise e, t'))
      <-> ((normalized ∉ available) /\ (DEFAULT_LANG ∉ available)))
  /\ (normalized ∉ available -> DEFAULT_LANG ∉ available ->
      resolve_language w requested t
      = (Raise (JobError "tesseract language data missing (eng not installed)"),
         t1 ++ [fallback_warning normalized]))
  /\ (forall tag avail t',
        resolve_language w requested t = (Ok (tag, avail), t') ->
        (tag = normalized <-> normalized ∈ available))
  /\ (forall tag,
        normalize_language (Some tag) = tag -> tag ∈ available ->
        resolve_language w (Some tag) t = (Ok (tag, available), t1)).
Proof.
  intros Hlist normalized.
  pose proof (resolve_language_run w requested t available t1 Hlist) as Hrun.
  fold normalized in Hrun.
  assert (Hcanon : forall tag,
             normalize_language (Some tag) = tag -> tag ∈ available ->
             resolve_language w (Some tag) t = (Ok (tag, available), t1)).
  { intros tag Htag Hin.
    rewrite (resolve_language_run w (Some tag) t available t1 Hlist), Htag.
    apply member_spec in Hin. by rewrite Hin. }
  destruct (member normalized available) eqn:Hn;
    [apply member_spec in Hn | apply member_false in Hn];
    (destruct (member DEFAULT_LANG available) eqn:Hd;
     [apply member_spec in Hd | apply member_false in Hd]);
    rewrite Hrun; (split; [|split; [|split; [|split; [|split]]]]);
    try exact Hcanon; try done.
  all: try (split; [intros (e & t' & [=]) | intros [? ?]; done]).
  all: try (intros tag avail t' [= <- _ _]; done).
  - intros tag avail t' [= <- _ _]. split; [|done]. intros Heq.
    rewrite <- Heq in Hn. done.
  - split; [done | eauto].
Qed.

Lemma resolve_language_spec_witness :
  resolve_language sample_os (Some "JA") []
  = (Ok ("jpn", ["eng"; "jpn"; "osd"]), command_effects ["tesseract"; "--list-langs"])
  /\ resolve_language sample_os (Some "fra") []
     = (Ok ("eng", ["eng"; "jpn"; "osd"]),
        command_effects ["tesseract"; "--list-langs"] ++ [fallback_warning "fra"])
  /\ resolve_language bare_os (Some "fra") []
     = (Raise (JobError "tesseract language data missing (eng not installed)"),
        command_effects ["tesseract"; "--list-langs"] ++ [fallback_warning "fra"]).
Proof.
  split; [|split].
  - apply (resolve_language_spec sample_os (Some "JA") []
             ["eng"; "jpn"; "osd"] _ eq_refl).
    apply member_spec. reflexivity.
  - apply (resolve_language_spec sample_os (Some "fra") []
             ["eng"; "jpn"; "osd"] _ eq_refl).
    + apply member_false. reflexivity.
    + apply member_spec. reflexivity.
  - apply (resolve_language_spec bare_os (Some "fra") [] ["osd"] _ eq_refl).
    + apply member_false. reflexivity.
    + apply member_false. reflexivity.
Defined.

(** ** C10: a tag of whitespace only *)

Lemma isspace_lower_char c : Py.isspace (Py.lower_char c) = Py.isspace c.
Proof. destruct c as [[] [] [] [] [] [] [] []]; reflexivity. Qed.

Lemma all_space_lower s : all_space (Py.lower s) = all_space s.
Proof.
  induction s as [|c s IH]; simpl; [done|].
  by rewrite isspace_lower_char, IH.
Qed.

Lemma strip_all_space s : all_space s = true -> Py.strip s = "".
Proof.
  unfold Py.strip. induction s as [|c s IH]; simpl; [done|].
  intros [Hc Hs]%andb_prop. rewrite Hc. by apply IH.
Qed.

(** C10. A requested tag that is not empty and holds whitespace only is
    normalized to the empty string, not to ["eng"], whereas a missing tag
    is normalized to ["eng"] directly.  The empty string is never among
    the installed languages, so [resolve_language] prints its warning for
    it and falls back to ["eng"] (or raises when ["eng"] is not installed
    either). *)
Theorem normalize_language_whitespace w lang t available t1 :
  lang <> "" -> all_space lang = true ->
  list_tesseract_languages w t = (Ok available, t1) ->
  normalize_language (Some lang) = ""
  /\ normalize_language None = DEFAULT_LANG
  /\ ("" ∉ available)
  /\ resolve_language w (Some lang) t
     = if member DEFAULT_LANG available
       then (Ok (DEFAULT_LANG, available), t1 ++ [fallback_warning ""])
       else (Raise (JobError "tesseract language data missing (eng not installed)"),
             t1 ++ [fallback_warning ""]).
Proof.
  intros Hne Hspace Hlist.
  assert (Hnorm : normalize_language (Some lang) = "").
  { unfold normalize_language.
    destruct (String.eqb_spec lang ""); [done|].
    rewrite strip_all_space by (by rewrite all_space_lower). reflexivity. }
  pose proof (list_tesseract_languages_nonempty w t available t1 Hlist) as Hnot.
  split; [exact Hnorm|]. split; [reflexivity|]. split; [exact Hnot|].
  rewrite (resolve_language_run w (Some lang) t available t1 Hlist), Hnorm.
  apply member_false in Hnot. by rewrite Hnot.
Qed.

Lemma normalize_language_whitespace_witness :
  normalize_language (Some " ") = ""
  /\ resolve_language sample_os (Some " ") []
     = (Ok ("eng", ["eng"; "jpn"; "osd"]),
        command_effects ["tesseract"; "--list-langs"] ++ [fallback_warning ""]).
Proof.
  destruct (normalize_language_whitespace sample_os " " [] ["eng"; "jpn"; "osd"] _
              ltac:(discriminate) eq_refl eq_refl) as (Hnorm & _ & _ & Hres).
  split; [exact Hnorm | exact Hres].
Defined.

(** ** C7: a recognition that fails *)

(** C7. When the recognition of one image ends with
    [CalledProcessError], after the images before it were read, the loop
    logs the failure with the path of the image and the error text of the
    command, records the empty text at the position of that image, and
    goes on with the images that remain.  As long as commands fail in no
    other way, the loop ends normally with one text for each image. *)
Theorem ocr_failure_gives_empty_text w language pre image post texts t texts1 t1 cmd err :
  ocr_loop w language pre texts t = (Ok texts1, t1) ->
  os_run w (t1 ++ [EPrint ("[cmd] " +:+ Py.join " " (ocr_command image language))])
    (ocr_command image language)
  = Raise (CalledProcessError cmd err) ->
  length texts1 = (length texts + length pre)%nat
  /\ ocr_loop w language (pre ++ image :: post) texts t
     = ocr_loop w language post (texts1 ++ [""])
         (t1 ++ command_effects (ocr_command image language)
             ++ [ocr_failure_line image err])
  /\ (recoverable w ->
      exists texts' t',
        ocr_loop w language (pre ++ image :: post) texts t = (Ok texts', t')
        /\ length texts' = (length texts + length (pre ++ image :: post))%nat
        /\ texts' !! (length texts + length pre)%nat = Some ""
        /\ ocr_failure_line image err ∈ t').
Proof.
  intros Hpre Hfail.
  destruct (ocr_loop_extends _ _ _ _ _ _ _ Hpre) as (more & evs & -> & Hmore & ->).
  assert (Hstep : ocr_loop w language (pre ++ image :: post) texts t
                  = ocr_loop w language post ((texts ++ more) ++ [""])
                      ((t ++ evs) ++ command_effects (ocr_command image language)
                         ++ [ocr_failure_line image err])).
  { rewrite ocr_loop_app, Hpre, ocr_loop_cons, Hfail. reflexivity. }
  split; [by rewrite length_app, Hmore|]. split; [exact Hstep|].
  intros Hrec. rewrite Hstep.
  destruct (ocr_loop_total w language post ((texts ++ more) ++ [""])
              ((t ++ evs) ++ command_effects (ocr_command image language)
                 ++ [ocr_failure_line image err]) Hrec) as (texts' & t' & Hrun).
  exists texts', t'. split; [exact Hrun|].
  apply ocr_loop_extends in Hrun as (more' & evs' & -> & Hmore' & ->).
  split; [|split].
  - rewrite !length_app, Hmore, Hmore'. simpl. lia.
  - rewrite <- (app_assoc (texts ++ more)). simpl.
    apply list_lookup_middle. by rewrite length_app, Hmore.
  - rewrite !elem_of_app. left. right. right.
    rewrite list_elem_of_In. simpl. auto.
Qed.

Lemma ocr_failure_gives_empty_text_witness :
  ocr_loop failing_os "eng"
    ["/tmp/ocr_worker_x/frames/subtitle-000001.png";
     "/tmp/ocr_worker_x/frames/subtitle-000002.png"] [] []
  = ocr_loop failing_os "eng" ["/tmp/ocr_worker_x/frames/subtitle-000002.png"] [""]
      (command_effects (ocr_command "/tmp/ocr_worker_x/frames/subtitle-000001.png" "eng")
       ++ [ocr_failure_line "/tmp/ocr_worker_x/frames/subtitle-000001.png"
             "Error during processing. "]).
Proof.
  exact (proj1 (proj2 (ocr_failure_gives_empty_text failing_os "eng" []
                         "/tmp/ocr_worker_x/frames/subtitle-000001.png"
                         ["/tmp/ocr_worker_x/frames/subtitle-000002.png"]
                         [] [] [] [] _ _ eq_refl eq_refl))).
Defined.

(** ** C8: a job of an unsupported type *)

(** C8. For a job whose type, in lower case and trimmed, is neither
    ["vobsub"] nor ["pgs"], [process_job] returns 2 after printing one
    warning and nothing else: no path is checked, no language resolved, no
    command run, no file or directory touched.  The worker then exits
    with 2, which is neither the 0 of a success nor the 1 of a failure. *)
Theorem unsupported_type_needs_review w job dry_run t :
  let job_type := Py.strip (Py.lower (default "" (job !! "type"))) in
  job_type ∉ SUPPORTED_TYPES ->
  process_job w job dry_run t
  = (Ok 2, t ++ [EPrint ("[warn] Unsupported type '" +:+ job_type
                         +:+ "'. Marking as needs-review.")])
  /\ exit_status (process_job w job dry_run t).1 = 2
  /\ exit_status (Ok 0) <> 2
  /\ (forall e, exit_status (Raise e) <> 2).
Proof.
  intros job_type Hnot.
  assert (Hrun : process_job w job dry_run t
                 = (Ok 2, t ++ [EPrint ("[warn] Unsupported type '" +:+ job_type
                                        +:+ "'. Marking as needs-review.")])).
  { unfold process_job. fold job_type.
    apply member_false in Hnot. rewrite Hnot. reflexivity. }
  split; [exact Hrun|]. rewrite Hrun. done.
Qed.

Lemma unsupported_type_needs_review_witness :
  process_job sample_os {["type" := "srt"]} false []
  = (Ok 2, [EPrint "[warn] Unsupported type 'srt'. Marking as needs-review."]).
Proof.
  refine (proj1 (unsupported_type_needs_review sample_os {["type" := "srt"]}
                   false [] _)).
  apply member_false. reflexivity.
Defined.

(** ** Effects of the stages before extraction *)

Lemma confined_ret {A} P (a : A) : confined P (ret a).
Proof. intros t. exists []. by rewrite app_nil_r. Qed.

Lemma confined_raise {A} P e : confined P (@raise A e).
Proof. intros t. exists []. by rewrite app_nil_r. Qed.

Lemma confined_lift {A} P (r : result A) : confined P (lift r).
Proof. intros t. exists []. by rewrite app_nil_r. Qed.

Lemma confined_perform {A} (P : effect -> Prop) e (answer : trace -> result A) :
  P e -> confined P (perform e answer).
Proof. intros He t. exists [e]. split; [done | by constructor]. Qed.

Lemma confined_bind {A B} P (m : M A) (k : A -> M B) :
  confined P m -> (forall a, confined P (k a)) -> confined P (bind m k).
Proof.
  intros Hm Hk t. unfold bind.
  destruct (Hm t) as (evs & Ht & Hevs).
  destruct (m t) as [[a|e] t1]; simpl in Ht; subst t1.
  - destruct (Hk a (t ++ evs)) as (evs' & Ht' & Hevs').
    exists (evs ++ evs'). rewrite Ht', app_assoc. split; [done|].
    by apply Forall_app.
  - by exists evs.
Qed.

Lemma confined_catch {A} P (m : M A) h :
  confined P m -> (forall e k, h e = Some k -> confined P k) ->
  confined P (catch m h).
Proof.
  intros Hm Hh t. unfold catch.
  destruct (Hm t) as (evs & Ht & Hevs).
  destruct (m t) as [[a|e] t1]; simpl in Ht; subst t1.
  - by exists evs.
  - destruct (h e) as [k|] eqn:Hk; [|by exists evs].
    destruct (Hh e k Hk (t ++ evs)) as (evs' & Ht' & Hevs').
    exists (evs ++ evs'). rewrite Ht', app_assoc. split; [done|].
    by apply Forall_app.
Qed.

Ltac confine :=
  repeat match goal with
         | |- confined _ (ret _) => apply confined_ret
         | |- confined _ (raise _) => apply confined_raise
         | |- confined _ (lift _) => apply confined_lift
         | |- confined _ (perform _ _) => apply confined_perform; reflexivity
         | |- confined _ (bind _ _) => apply confined_bind; [|intros ?]
         end.

Lemma confined_log message : confined is_validation (log message).
Proof. unfold log. confine. Qed.

Lemma confined_ensure_readable w path :
  confined is_validation (ensure_readable w path).
Proof.
  unfold ensure_readable. destruct (String.eqb path ""); confine.
  destruct (negb _); confine. destruct (negb _); confine.
Qed.

Lemma confined_ensure_writable w path :
  confined is_validation (ensure_writable w path).
Proof.
  unfold ensure_writable. confine.
  destruct (negb _); confine. destruct (negb _); confine.
Qed.

Lemma confined_validate_paths w job job_type :
  confined is_validation (validate_paths w job job_type).
Proof.
  unfold validate_paths.
  destruct (job_get job "srt_output"); confine.
  - apply confined_ensure_writable.
  - destruct (String.eqb job_type "vobsub").
    + destruct (job_get job "idx"); confine; apply confined_ensure_readable.
    + destruct (job_get job "bitmap_file"); confine; apply confined_ensure_readable.
Qed.

Lemma confined_resolve_language w requested :
  confined is_validation (resolve_language w requested).
Proof.
  unfold resolve_language, list_tesseract_languages, run_command, log.
  confine.
  - apply confined_catch; confine.
    intros [] k [=]; subst. confine.
  - destruct (Py.splitlines _); confine.
  - destruct (member _ _); confine. destruct (negb _); confine.
Qed.

Lemma confined_load_frames w input_path :
  confined is_validation (load_frames w input_path).
Proof. unfold load_frames, run_command, log. confine. Qed.

(** A dry run has the effects of validation only, however it ends. *)
Lemma confined_dry_run w job : confined is_validation (process_job w job true).
Proof.
  unfold process_job. destruct (negb _).
  - confine. apply confined_log.
  - apply confined_bind; [apply confined_validate_paths|].
    intros [srt_output input_path].
    apply confined_bind; [apply confined_resolve_language|].
    intros [language available].
    apply confined_bind; [apply confined_log|]. intros _.
    apply confined_bind; [apply confined_load_frames|]. intros frames.
    destruct frames; confine; apply confined_log.
Qed.

(** ** C9: dry run *)

(** C9. In a dry run of a job of a supported type whose paths pass the
    checks, whose language is resolved and whose timing sequence is not
    empty, [process_job] returns 0 right after loading the timing: it
    prints the success line and stops.  What it did from the start is
    validation only: no directory or file was created, and neither ffmpeg
    nor the recognition was run. *)
Theorem dry_run_stops_after_timing w job t srt_output input_path t1
    language available t2 frames t3 :
  let job_type := Py.strip (Py.lower (default "" (job !! "type"))) in
  job_type ∈ SUPPORTED_TYPES ->
  validate_paths w job job_type t = (Ok (srt_output, input_path), t1) ->
  resolve_language w (job !! "language") t1 = (Ok (language, available), t2) ->
  load_frames w input_path
    (t2 ++ [EPrint ("[info] Using tesseract language: " +:+ language)])
  = (Ok frames, t3) ->
  frames <> [] ->
  process_job w job true t = (Ok 0, t3 ++ [EPrint "[info] Dry run successful."])
  /\ exists evs,
       t3 ++ [EPrint "[info] Dry run successful."] = t ++ evs
       /\ Forall (fun e => validation_effect e = true) evs.
Proof.
  intros job_type Htype Hpaths Hlang Hframes Hne.
  assert (Hrun : process_job w job true t
                 = (Ok 0, t3 ++ [EPrint "[info] Dry run successful."])).
  { unfold process_job. fold job_type.
    apply member_spec in Htype. rewrite Htype. unfold negb.
    unfold bind at 1. rewrite Hpaths.
    unfold bind at 1. rewrite Hlang.
    unfold bind at 1. unfold log at 1, perform at 1.
    unfold bind at 1. rewrite Hframes.
    destruct frames; [done|]. reflexivity. }
  split; [exact Hrun|].
  destruct (confined_dry_run w job t) as (evs & Ht & Hevs).
  rewrite Hrun in Ht. by exists evs.
Qed.

Lemma dry_run_stops_after_timing_witness :
  exists t', process_job sample_os sample_job true [] = (Ok 0, t')
             /\ Forall (fun e => validation_effect e = true) t'.
Proof.
  destruct (dry_run_stops_after_timing sample_os sample_job [] "out.srt" "a.idx"
              _ "eng" ["eng"; "jpn"; "osd"] _ _ _
              ltac:(apply member_spec; reflexivity) eq_refl eq_refl eq_refl
              ltac:(discriminate)) as (Hrun & evs & Hevs & Hall).
  eexists. split; [exact Hrun|]. rewrite Hevs. exact Hall.
Defined.

(** * Further properties *)

(** ** The timestamp formatter: when it raises *)

(** The product of a float with 1000 is NaN only for NaN. *)
Lemma float_mul_1000_nan v :
  Py.float_mul v (Py.float_of_Z 1000) = S754_nan -> v = S754_nan.
Proof.
  rewrite float_1000. destruct v as [s|s| |s m e]; simpl; try done.
  intros H. by apply binary_round_aux_not_nan in H.
Qed.

(** X1. [seconds_to_srt_time] raises [ValueError] exactly on NaN and
    [OverflowError] exactly on an offset that is not negative and whose
    product with 1000 is infinite; it raises nothing else, and never on a
    negative offset. *)
Theorem seconds_to_srt_time_exceptions v :
  (seconds_to_srt_time v = Raise ValueError <-> v = S754_nan)
  /\ (seconds_to_srt_time v = Raise OverflowError
      <-> Py.float_lt v (Py.float_of_Z 0) = false
          /\ exists s, Py.float_mul v (Py.float_of_Z 1000) = S754_infinity s)
  /\ (forall e, seconds_to_srt_time v = Raise e ->
                (e = ValueError \/ e = OverflowError)
                /\ Py.float_lt v (Py.float_of_Z 0) = false).
Proof.
  unfold seconds_to_srt_time, total_millis.
  destruct (Py.float_lt v (Py.float_of_Z 0)) eqn:Hlt.
  - simpl. split; [|split].
    + split; [done|]. intros ->. by rewrite float_0 in Hlt.
    + split; [done | by intros [? _]].
    + done.
  - pose proof (float_mul_1000_nan v) as Hnan.
    destruct (Py.float_mul v (Py.float_of_Z 1000)) as [s|s| |s m e] eqn:Hmul;
      simpl; (split; [|split]).
    all: try (split; [done|]).
    all: try (by intros [_ [? [=]]]).
    all: try (intros ->; rewrite float_1000 in Hmul; discriminate Hmul).
    all: try (intros e [= <-]; auto).
    all: try done.
    + split; [eauto | done].
    + split; [intros _; by apply Hnan | done].
Qed.

(** ** The timestamp formatter: reading a timestamp back *)

Lemma before_app c a rest :
  lacks c a = true -> before c (a +:+ String c "" +:+ rest) = a.
Proof.
  change (String c "" +:+ rest) with (String c rest).
  induction a as [|x a IH]; app_simpl; simpl.
  - by rewrite Ascii.eqb_refl.
  - intros [Hx Ha]%andb_prop. apply negb_true_iff in Hx.
    rewrite Hx. by rewrite IH.
Qed.

Lemma after_app c a rest :
  lacks c a = true -> after c (a +:+ String c "" +:+ rest) = rest.
Proof.
  change (String c "" +:+ rest) with (String c rest).
  induction a as [|x a IH]; app_simpl; simpl.
  - by rewrite Ascii.eqb_refl.
  - intros [Hx Ha]%andb_prop. apply negb_true_iff in Hx.
    rewrite Hx. by apply IH.
Qed.

Lemma lacks_cons c a r :
  lacks c (String a r) = negb (Ascii.eqb a c) && lacks c r.
Proof. reflexivity. Qed.

Lemma string_of_uint_lacks d c :
  is_digit c = false -> lacks c (NilEmpty.string_of_uint d) = true.
Proof.
  intros Hc. induction d; cbn [NilEmpty.string_of_uint]; [done|..];
    rewrite lacks_cons, IHd, andb_true_r;
    apply negb_true_iff, Ascii.eqb_neq; intros <-; discriminate Hc.
Qed.

Lemma str_lacks n c : 0 <= n -> is_digit c = false -> lacks c (Py.str n) = true.
Proof.
  intros Hn Hc. destruct n as [|p|p]; try lia.
  - change (lacks c "0" = true). rewrite lacks_cons, andb_true_r.
    apply negb_true_iff, Ascii.eqb_neq. intros <-. discriminate Hc.
  - pose proof (string_of_uint_lacks (Pos.to_uint p) c Hc) as H.
    pose proof (DecimalPos.Unsigned.to_uint_nonnil p) as Hnil.
    unfold Py.str, NilZero.string_of_int, NilZero.string_of_uint.
    cbn [Z.to_int]. by destruct (Pos.to_uint p).
Qed.

Lemma decimal_str n : decimal (Py.str n) = Some n.
Proof.
  unfold decimal, Py.str.
  destruct n as [|p|p]; simpl Z.to_int.
  - reflexivity.
  - rewrite NilZero.isi.
    + simpl. unfold Z.of_uint. by rewrite DecimalPos.Unsigned.of_to.
    + intros [= H]. by apply DecimalPos.Unsigned.to_uint_nonnil in H.
    + done.
  - rewrite NilZero.isi.
    + simpl. unfold Z.of_uint. by rewrite DecimalPos.Unsigned.of_to.
    + done.
    + intros [= H]. by apply DecimalPos.Unsigned.to_uint_nonnil in H.
Qed.

Lemma fixed_width_2_ok z : 0 <= z < 100 -> field_ok 2 z = true.
Proof.
  apply (Z_range_forallb (field_ok 2) 100). vm_compute. reflexivity.
Qed.

Lemma fixed_width_3_ok z : 0 <= z < 1000 -> field_ok 3 z = true.
Proof.
  apply (Z_range_forallb (field_ok 3) 1000). vm_compute. reflexivity.
Qed.

Lemma field_ok_spec w z :
  field_ok w z = true ->
  lacks ":" (fixed_width w z) = true /\ lacks "," (fixed_width w z) = true
  /\ decimal (fixed_width w z) = Some z
  /\ String.length (fixed_width w z) = w.
Proof.
  unfold field_ok. rewrite !andb_true_iff, bool_decide_eq_true, Nat.eqb_eq.
  tauto.
Qed.

Lemma hours_field_ok h :
  0 <= h -> lacks ":" (hours_field h) = true /\ decimal (hours_field h) = Some h.
Proof.
  intros Hh. unfold hours_field. destruct (Z.ltb_spec h 100).
  - destruct (field_ok_spec 2 h) as (? & _ & ? & _);
      [apply fixed_width_2_ok; lia | done].
  - split; [by apply str_lacks | apply decimal_str].
Qed.

Lemma millis_recomposed m :
  m / 3600000 * 3600000 + (m / 60000) mod 60 * 60000
  + (m / 1000) mod 60 * 1000 + m mod 1000 = m.
Proof.
  pose proof (Z.div_mod m 1000 ltac:(lia)).
  pose proof (Z.div_mod (m / 1000) 60 ltac:(lia)).
  pose proof (Z.div_mod (m / 60000) 60 ltac:(lia)).
  assert (m / 1000 / 60 = m / 60000) by (rewrite Z.div_div by lia; done).
  assert (m / 60000 / 60 = m / 3600000) by (rewrite Z.div_div by lia; done).
  lia.
Qed.

Lemma srt_millis_shape m : 0 <= m -> srt_millis (srt_shape m) = Some m.
Proof.
  intros Hm. unfold srt_millis, srt_shape.
  destruct (hours_field_ok (m / 3600000)) as [Hh1 Hh2];
    [apply Z.div_pos; lia|].
  destruct (field_ok_spec 2 ((m / 60000) mod 60)) as (Hm1 & _ & Hm2 & _);
    [apply fixed_width_2_ok; pose proof (Z.mod_pos_bound (m / 60000) 60); lia|].
  destruct (field_ok_spec 2 ((m / 1000) mod 60)) as (_ & Hs1 & Hs2 & _);
    [apply fixed_width_2_ok; pose proof (Z.mod_pos_bound (m / 1000) 60); lia|].
  destruct (field_ok_spec 3 (m mod 1000)) as (_ & _ & Hms & _);
    [apply fixed_width_3_ok; apply Z.mod_pos_bound; lia|].
  rewrite !before_app, !after_app, !before_app by done.
  rewrite Hh2, Hm2, Hs2, Hms. simpl. f_equal. apply millis_recomposed.
Qed.

(** The decoder inverts the formatting. *)
Lemma srt_millis_fields k : 0 <= k -> srt_millis (srt_fields k) = Some k.
Proof. intros Hk. rewrite srt_fields_shape by done. by apply srt_millis_shape. Qed.

Lemma srt_fields_inj m m' :
  0 <= m -> 0 <= m' -> srt_fields m = srt_fields m' -> m = m'.
Proof.
  intros Hm Hm' Heq. pose proof (srt_millis_fields m Hm) as H1.
  rewrite Heq, srt_millis_fields in H1 by done. congruence.
Qed.

(** X2. A timestamp reads back as the number of milliseconds it was
    formatted from: [srt_millis] inverts the formatting, so two numbers of
    milliseconds with the same timestamp are the same number. *)
Theorem srt_millis_round_trip m m' :
  0 <= m -> 0 <= m' ->
  srt_millis (srt_fields m) = Some m
  /\ (srt_fields m = srt_fields m' -> m = m').
Proof.
  intros Hm Hm'. split; [by apply srt_millis_fields | by apply srt_fields_inj].
Qed.

Lemma srt_millis_round_trip_witness :
  srt_millis (srt_fields 90000500) = Some 90000500
  /\ srt_fields 90000500 = "25:00:00,500".
Proof.
  split; [|reflexivity].
  exact (proj1 (srt_millis_round_trip 90000500 0 ltac:(lia) ltac:(lia))).
Defined.




Lemma length_append a b :
  String.length (a +:+ b) = (String.length a + String.length b)%nat.
Proof. induction a as [|x a IH]; app_simpl; simpl; [done | by rewrite IH]. Qed.



(** ** Language tags: normalization *)

Lemma lower_char_idempotent c : Py.lower_char (Py.lower_char c) = Py.lower_char c.
Proof. destruct c as [[] [] [] [] [] [] [] []]; reflexivity. Qed.

Lemma lower_idempotent s : Py.lower (Py.lower s) = Py.lower s.
Proof.
  induction s as [|c s IH]; simpl; [done|].
  by rewrite lower_char_idempotent, IH.
Qed.

Lemma lower_lstrip s : Py.lstrip (Py.lower s) = Py.lower (Py.lstrip s).
Proof.
  induction s as [|c s IH]; simpl; [done|].
  rewrite isspace_lower_char. by destruct (Py.isspace c).
Qed.

Lemma lower_rstrip s : Py.rstrip (Py.lower s) = Py.lower (Py.rstrip s).
Proof.
  induction s as [|c s IH]; simpl; [done|].
  rewrite IH, isspace_lower_char.
  destruct (Py.rstrip s); simpl; [by destruct (Py.isspace c) | done].
Qed.

Lemma lower_strip s : Py.strip (Py.lower s) = Py.lower (Py.strip s).
Proof. unfold Py.strip. by rewrite lower_lstrip, lower_rstrip. Qed.

Lemma rstrip_idempotent s : Py.rstrip (Py.rstrip s) = Py.rstrip s.
Proof.
  induction s as [|c s IH]; simpl; [done|].
  destruct (Py.rstrip s) as [|a r] eqn:E.
  - destruct (Py.isspace c) eqn:Hc; simpl; [done | by rewrite Hc].
  - simpl in *. rewrite IH. done.
Qed.

(** What [rstrip] leaves begins as the text did. *)
Lemma rstrip_head c r :
  Py.isspace c = false -> exists r', Py.rstrip (String c r) = String c r'.
Proof.
  intros Hc. simpl. destruct (Py.rstrip r); [rewrite Hc|]; eauto.
Qed.

Lemma lstrip_head s :
  Py.lstrip s = "" \/ exists c r, Py.lstrip s = String c r /\ Py.isspace c = false.
Proof.
  induction s as [|c s IH]; simpl; [by left|].
  destruct (Py.isspace c) eqn:Hc; [done | right; eauto].
Qed.

Lemma strip_head s :
  Py.strip s = "" \/ exists c r, Py.strip s = String c r /\ Py.isspace c = false.
Proof.
  unfold Py.strip. destruct (lstrip_head s) as [-> | (c & r & -> & Hc)].
  - by left.
  - right. destruct (rstrip_head c r Hc) as [r' ->]. eauto.
Qed.

Lemma strip_idempotent s : Py.strip (Py.strip s) = Py.strip s.
Proof.
  destruct (strip_head s) as [-> | (c & r & Heq & Hc)]; [done|].
  unfold Py.strip at 1. rewrite Heq. simpl Py.lstrip. rewrite Hc, <- Heq.
  unfold Py.strip. apply rstrip_idempotent.
Qed.

(** X5. What [normalize_language] returns is never a key of the alias
    table and is unchanged by lower-casing and trimming; so a tag it
    returns, unless empty, is returned unchanged when normalized again. *)
Theorem normalize_language_canonical lang :
  let tag := normalize_language lang in
  aliases !! tag = None
  /\ Py.strip (Py.lower tag) = tag
  /\ (tag <> "" -> normalize_language (Some tag) = tag).
Proof.
  intros tag.
  assert (Hdef : aliases !! DEFAULT_LANG = None
                 /\ Py.strip (Py.lower DEFAULT_LANG) = DEFAULT_LANG) by done.
  assert (Hcase : aliases !! tag = None /\ Py.strip (Py.lower tag) = tag).
  { subst tag. unfold normalize_language.
    destruct lang as [l|]; [|exact Hdef].
    destruct (String.eqb l ""); [exact Hdef|].
    destruct (aliases !! Py.strip (Py.lower l)) as [v|] eqn:Hal; simpl.
    - apply elem_of_list_to_map_2 in Hal.
      rewrite !elem_of_cons, elem_of_nil in Hal.
      destruct Hal as [[= _ ->]|[[= _ ->]|[[= _ ->]|[[= _ ->]|[[= _ ->]|[[= _ ->]|[]]]]]]];
        done.
    - split; [done|].
      by rewrite (lower_strip l), lower_idempotent, lower_strip, strip_idempotent. }
  destruct Hcase as [Hnone Hfix]. split; [done|]. split; [done|].
  intros Hne. unfold normalize_language.
  destruct (String.eqb_spec tag ""); [done|].
  by rewrite Hfix, Hnone.
Qed.

(** ** Language tags: the listing of the engine *)

Lemma rstrip_ends s : Py.rstrip s = "" \/ ends_nonspace (Py.rstrip s).
Proof.
  induction s as [|c s IH]; simpl; [by left|].
  destruct (Py.rstrip s) as [|a r] eqn:E.
  - destruct (Py.isspace c) eqn:Hc; [by left|]. right. by exists "", c.
  - right. destruct IH as [|IH]; [done|].
    change (String c (String a r)) with (String c "" +:+ String a r).
    by apply ends_nonspace_app.
Qed.

Lemma trimmed_ends s : s <> "" -> Py.strip s = s -> ends_nonspace s.
Proof.
  intros Hne Heq. rewrite <- Heq. unfold Py.strip.
  destruct (rstrip_ends (Py.lstrip s)) as [H|H]; [|done].
  unfold Py.strip in Heq. congruence.
Qed.

Lemma trimmed_head s :
  s <> "" -> Py.strip s = s -> exists c r, s = String c r /\ Py.isspace c = false.
Proof.
  intros Hne Heq. destruct (strip_head s) as [H | (c & r & H & Hc)];
    [congruence|]. exists c, r. split; [congruence | done].
Qed.

Lemma rstrip_ends_nonspace s : ends_nonspace s -> Py.rstrip s = s.
Proof. intros (body & c & -> & Hc). by apply rstrip_snoc_nonspace. Qed.

Lemma join_head sep c r rest :
  exists r', Py.join sep (String c r :: rest) = String c r'.
Proof. destruct rest; simpl; app_simpl; eauto. Qed.

(** A text of trimmed lines, with a line feed after the last one, is
    stripped to the lines. *)
Lemma strip_lines line lines :
  Forall listing_line (line :: lines) ->
  Py.strip (Py.join newline (line :: lines) +:+ newline)
  = Py.join newline (line :: lines).
Proof.
  intros Hall.
  assert (Hends : ends_nonspace (Py.join newline (line :: lines))).
  { apply join_last; [apply ends_nonspace_app | done |].
    eapply Forall_impl; [exact Hall|]. intros l (Hne & Htrim & _).
    by apply trimmed_ends. }
  apply Forall_cons in Hall as [(Hne & Htrim & _) _].
  destruct (trimmed_head line Hne Htrim) as (c & r & -> & Hc).
  destruct (join_head newline c r lines) as [r' Hjoin].
  rewrite Hjoin in *. unfold Py.strip. app_simpl. simpl Py.lstrip. rewrite Hc.
  rewrite <- append_cons, rstrip_app_newline.
  by apply rstrip_ends_nonspace.
Qed.

Lemma splitlines_aux_prefix line cur s :
  no_linebreak line = true ->
  Py.splitlines_aux cur (line +:+ s) = Py.splitlines_aux (cur +:+ line) s.
Proof.
  revert cur. induction line as [|c line IH]; intros cur Hline; app_simpl.
  - by rewrite append_nil_r.
  - simpl in Hline. apply andb_prop in Hline as [Hc Hline].
    apply negb_true_iff in Hc. simpl. rewrite Hc, IH by done.
    by rewrite append_assoc.
Qed.

Lemma splitlines_aux_newline cur c r :
  Py.splitlines_aux cur (newline +:+ String c r)
  = cur :: Py.splitlines_aux "" (String c r).
Proof. reflexivity. Qed.

Lemma splitlines_join lines :
  Forall listing_line lines -> Py.splitlines (Py.join newline lines) = lines.
Proof.
  unfold Py.splitlines.
  induction 1 as [|line lines (Hne & _ & Hnl) Hlines IH]; [reflexivity|].
  destruct lines as [|line' lines].
  - simpl Py.join. rewrite <- (append_nil_r line) at 1.
    rewrite splitlines_aux_prefix by done. app_simpl. simpl.
    by destruct (String.eqb_spec line "").
  - change (Py.join newline (line :: line' :: lines))
      with (line +:+ newline +:+ Py.join newline (line' :: lines)).
    rewrite splitlines_aux_prefix by done. app_simpl.
    apply Forall_cons in Hlines as [(Hne' & _) _].
    destruct line' as [|c r]; [done|].
    destruct (join_head newline c r lines) as [r' Hjoin].
    rewrite Hjoin in *. rewrite splitlines_aux_newline. by rewrite IH.
Qed.

(** X6. From a listing of the engine made of a header line and one line
    for each language, all trimmed and not empty,
    [list_tesseract_languages] returns exactly the languages, in their
    order, and never the header. *)
Theorem list_tesseract_languages_round_trip w t header langs :
  Forall listing_line (header :: langs) ->
  os_run w (t ++ [EPrint "[cmd] tesseract --list-langs"])
    ["tesseract"; "--list-langs"]
  = Ok (tesseract_listing header langs) ->
  list_tesseract_languages w t
  = (Ok langs, t ++ command_effects ["tesseract"; "--list-langs"]).
Proof.
  intros Hall Hrun. rewrite list_tesseract_languages_run, Hrun.
  unfold tesseract_listing. rewrite strip_lines, splitlines_join by done.
  apply Forall_cons in Hall as [_ Hlangs]. do 2 f_equal. clear Hrun.
  induction Hlangs as [|lang langs (Hne & Htrim & _) _ IH]; [done|].
  assert (Hnb : nonblank lang = true).
  { unfold nonblank. rewrite Htrim. by apply negb_true_iff, String.eqb_neq. }
  rewrite filter_cons_True by done. simpl. by rewrite Htrim, IH.
Qed.

Lemma list_tesseract_languages_round_trip_witness :
  list_tesseract_languages sample_os []
  = (Ok ["eng"; "jpn"; "osd"], command_effects ["tesseract"; "--list-langs"]).
Proof.
  apply (list_tesseract_languages_round_trip sample_os []
           "List of available languages (3):" ["eng"; "jpn"; "osd"]).
  - repeat constructor; done.
  - reflexivity.
Defined.

Lemma list_tesseract_languages_trace w t r t1 :
  list_tesseract_languages w t = (r, t1) ->
  t1 = t ++ command_effects ["tesseract"; "--list-langs"].
Proof. rewrite list_tesseract_languages_run. by intros [= _ <-]. Qed.

Lemma list_tesseract_languages_trimmed w t available t1 :
  list_tesseract_languages w t = (Ok available, t1) ->
  Forall (fun lang => lang <> "" /\ Py.strip lang = lang) available.
Proof.
  rewrite list_tesseract_languages_run. intros [= Hr _]. revert Hr.
  destruct (os_run w _ _) as [out|[]]; try done. intros [= <-].
  destruct (Py.splitlines (Py.strip out)) as [|first rest]; [constructor|].
  apply Forall_forall. intros lang Hin.
  apply list_elem_of_fmap in Hin as (line & -> & Hin).
  apply list_elem_of_filter in Hin as [Hnb _].
  unfold nonblank in Hnb. apply negb_true_iff, String.eqb_neq in Hnb.
  split; [done | apply strip_idempotent].
Qed.

Lemma list_tesseract_languages_raises w t e t1 :
  list_tesseract_languages w t = (Raise e, t1) ->
  e <> FileNotFoundError
  /\ (os_run w (t ++ [EPrint "[cmd] tesseract --list-langs"])
        ["tesseract"; "--list-langs"] = Raise e
      \/ (e = JobError "tesseract not found in PATH"
          /\ os_run w (t ++ [EPrint "[cmd] tesseract --list-langs"])
               ["tesseract"; "--list-langs"] = Raise FileNotFoundError)).
Proof.
  rewrite list_tesseract_languages_run. intros [= Hr _]. revert Hr.
  destruct (os_run w _ _) as [out|[]]; try done; intros [= <-];
    (split; [done|]); auto.
Qed.



(** X8. A language that [resolve_language] returns is installed: it is
    in the list returned with it, which is the list of the engine; it is
    the normalized request or ["eng"], is not empty and is trimmed. *)
Theorem resolve_language_installed w requested t tag available t' :
  resolve_language w requested t = (Ok (tag, available), t') ->
  tag ∈ available
  /\ (tag = normalize_language requested \/ tag = DEFAULT_LANG)
  /\ tag <> "" /\ Py.strip tag = tag
  /\ list_tesseract_languages w t
     = (Ok available, t ++ command_effects ["tesseract"; "--list-langs"]).
Proof.
  intros Hrun.
  destruct (list_tesseract_languages w t) as [[avail|e] t1] eqn:Hlist.
  - pose proof (list_tesseract_languages_trimmed w t _ _ Hlist) as Hall.
    apply list_tesseract_languages_trace in Hlist as Ht. subst t1.
    rewrite (resolve_language_run w requested t avail _ Hlist) in Hrun.
    assert (Hin : tag ∈ available
                  /\ (tag = normalize_language requested \/ tag = DEFAULT_LANG)
                  /\ avail = available).
    { destruct (member (normalize_language requested) avail) eqn:Hn.
      - injection Hrun as <- <- _. apply member_spec in Hn. auto.
      - destruct (member DEFAULT_LANG avail) eqn:Hd; [|done].
        injection Hrun as <- <- _. apply member_spec in Hd. auto. }
    destruct Hin as (Hin & Hor & ->). split; [done|]. split; [done|].
    rewrite Forall_forall in Hall. destruct (Hall tag Hin). done.
  - unfold resolve_language, bind in Hrun. rewrite Hlist in Hrun. done.
Qed.

Lemma resolve_language_installed_witness :
  "eng" ∈ ["eng"; "jpn"; "osd"].
Proof.
  exact (proj1 (resolve_language_installed sample_os (Some "fra") [] "eng"
                  ["eng"; "jpn"; "osd"] _ eq_refl)).
Defined.

(** X9. When the program of the engine is missing, [resolve_language]
    raises [JobError] "tesseract not found in PATH" right after the
    attempt to run it; no fallback warning is printed.  Every exception of
    [resolve_language] is either that of the language query, with no
    warning, or the [JobError] for missing data of ["eng"], after the
    warning. *)
Theorem resolve_language_failure w requested t e t' :
  resolve_language w requested t = (Raise e, t') ->
  (list_tesseract_languages w t = (Raise e, t')
   /\ t' = t ++ command_effects ["tesseract"; "--list-langs"]
   /\ e <> FileNotFoundError)
  \/ (e = JobError "tesseract language data missing (eng not installed)"
      /\ t' = t ++ command_effects ["tesseract"; "--list-langs"]
              ++ [fallback_warning (normalize_language requested)]
      /\ exists available,
           list_tesseract_languages w t
           = (Ok available, t ++ command_effects ["tesseract"; "--list-langs"])
           /\ (DEFAULT_LANG ∉ available)
           /\ (normalize_language requested ∉ available)).
Proof.
  intros Hrun.
  destruct (list_tesseract_languages w t) as [[avail|e0] t1] eqn:Hlist.
  - right. apply list_tesseract_languages_trace in Hlist as Ht. subst t1.
    rewrite (resolve_language_run w requested t avail _ Hlist) in Hrun.
    destruct (member (normalize_language requested) avail) eqn:Hn; [done|].
    destruct (member DEFAULT_LANG avail) eqn:Hd; [done|].
    injection Hrun as <- <-. apply member_false in Hn, Hd.
    rewrite <- app_assoc. split; [done|]. split; [done|]. by exists avail.
  - left. apply list_tesseract_languages_trace in Hlist as Ht. subst t1.
    destruct (list_tesseract_languages_raises w t _ _ Hlist) as [Hne _].
    unfold resolve_language, bind in Hrun. rewrite Hlist in Hrun.
    injection Hrun as <- <-. done.
Qed.

(** ** Frames without duration *)

Lemma float_add_zero_stamp x s :
  seconds_to_srt_time (Py.float_add x (S754_zero s)) = seconds_to_srt_time x.
Proof. destruct x as [[]|[]| |[] m e]; destruct s; reflexivity. Qed.

(** X10. A frame of the ffprobe report whose duration is missing, zero or
    negative ends where it starts: its two timestamps are the same, so it
    gives no caption whatever its text, and the assembler skips it when
    its start can be formatted. *)
Theorem frame_without_duration_dropped raw text :
  pkt_duration_time raw = None
  \/ (exists d, pkt_duration_time raw = Some d
                /\ (Py.float_lt d (Py.float_of_Z 0) = true
                    \/ exists s, d = S754_zero s)) ->
  let frame := frame_of_raw raw in
  seconds_to_srt_time (end_ frame) = seconds_to_srt_time (start frame)
  /\ caption_of (frame, text) = None
  /\ ((exists s, seconds_to_srt_time (start frame) = Ok s) ->
      forall pre post entries index,
        build_srt_loop (pre ++ (frame, text) :: post) entries index
        = build_srt_loop (pre ++ post) entries index).
Proof.
  intros Hdur frame.
  assert (Hzero : exists s, max_zero (default (Py.float_of_Z 0) (pkt_duration_time raw))
                            = S754_zero s).
  { destruct Hdur as [-> | (d & -> & [Hlt | [s ->]])]; simpl.
    - by exists false.
    - unfold max_zero. rewrite Hlt. by exists false.
    - exists s. by destruct s. }
  destruct Hzero as [s Hs].
  assert (Heq : seconds_to_srt_time (end_ frame) = seconds_to_srt_time (start frame)).
  { subst frame.
    change (end_ (frame_of_raw raw))
      with (Py.float_add (start (frame_of_raw raw))
              (max_zero (default (Py.float_of_Z 0) (pkt_duration_time raw)))).
    rewrite Hs. apply float_add_zero_stamp. }
  split; [exact Heq|]. split.
  - unfold caption_of. cbn [fst snd]. rewrite Heq.
    destruct (String.eqb text ""); [done|].
    destruct (seconds_to_srt_time (start frame)); [|done].
    by rewrite String.eqb_refl.
  - intros [st Hst] pre post entries index.
    apply build_srt_loop_skip. right. exists st. cbn [fst snd].
    split; [done | by rewrite Heq].
Qed.

Lemma frame_without_duration_dropped_witness :
  build_srt_loop
    [(frame_of_raw (mkRawFrame (Some (Py.dyadic 3 (-1))) None), "WORLD")] [] 1
  = Ok [].
Proof.
  destruct (frame_without_duration_dropped
              (mkRawFrame (Some (Py.dyadic 3 (-1))) None) "WORLD"
              (or_introl eq_refl)) as (_ & _ & Hskip).
  exact (Hskip ltac:(by eexists) [] [] [] 1).
Defined.

(** ** The extracted images *)

Lemma insert_sorted_perm x l : insert_sorted x l ≡ₚ x :: l.
Proof.
  induction l as [|y l IH]; simpl; [done|].
  destruct (String.leb x y); [done|]. rewrite IH. apply Permutation_swap.
Qed.

Lemma insert_sorted_sorted x l :
  StronglySorted String.le l -> StronglySorted String.le (insert_sorted x l).
Proof.
  induction 1 as [|y l Hl IH Hall]; simpl.
  - repeat constructor.
  - destruct (String.leb x y) eqn:Hxy.
    + assert (Hle : String.le x y) by (unfold String.le; by rewrite Hxy).
      constructor; [by constructor|]. constructor; [done|].
      eapply Forall_impl; [exact Hall|]. intros z Hz. by etrans.
    + assert (Hle : String.le y x).
      { destruct (String.le_total x y) as [H|H]; [|done].
        unfold String.le in H. by rewrite Hxy in H. }
      constructor; [done|]. rewrite insert_sorted_perm. by constructor.
Qed.

Lemma sorted_perm l : sorted l ≡ₚ l.
Proof.
  induction l as [|x l IH]; simpl; [done|].
  by rewrite insert_sorted_perm, IH.
Qed.

Lemma sorted_sorted l : StronglySorted String.le (sorted l).
Proof.
  induction l as [|x l IH]; simpl; [constructor | by apply insert_sorted_sorted].
Qed.

Lemma extract_images_run w input_path output_dir t :
  extract_images w input_path output_dir t
  = match os_makedirs w t output_dir with
    | Raise e => (Raise e, t ++ [EMakedirs output_dir])
    | Ok _ =>
        match os_run w (t ++ [EMakedirs output_dir;
                              EPrint ("[cmd] " +:+ Py.join " "
                                        (ffmpeg_command input_path output_dir))])
                (ffmpeg_command input_path output_dir) with
        | Raise e =>
            (Raise e, t ++ EMakedirs output_dir
                        :: command_effects (ffmpeg_command input_path output_dir))
        | Ok _ =>
            let t1 := t ++ EMakedirs output_dir
                        :: command_effects (ffmpeg_command input_path output_dir) in
            (match os_listdir w t1 output_dir with
             | Raise e => Raise e
             | Ok names =>
                 Ok (sorted (map (path_join output_dir)
                               (filter (fun name => endswith ".png" (Py.lower name) = true)
                                  names)))
             end, t1 ++ [EListdir output_dir])
        end
    end.
Proof.
  unfold extract_images, bind, run_command, bind, log, perform, ret,
    ffmpeg_command, command_effects.
  simpl. destruct (os_makedirs w t output_dir); [|done].
  rewrite <- !app_assoc. simpl.
  destruct (os_run w _ _); [|done].
  by destruct (os_listdir w _ _).
Qed.

(** X11. The images that [extract_images] returns are in the order of
    their code points and are, up to order, the files of the directory
    whose name ends with ".png" in any case, each joined to the
    directory; nothing else of the directory is returned. *)
Theorem extract_images_sorted w input_path output_dir t images t' :
  extract_images w input_path output_dir t = (Ok images, t') ->
  StronglySorted String.le images
  /\ exists names,
       os_listdir w (t ++ EMakedirs output_dir
                       :: command_effects (ffmpeg_command input_path output_dir))
         output_dir = Ok names
       /\ images ≡ₚ map (path_join output_dir)
                      (filter (fun name => endswith ".png" (Py.lower name) = true)
                         names)
       /\ forall image, image ∈ images ->
            exists name, name ∈ names /\ image = path_join output_dir name
                         /\ endswith ".png" (Py.lower name) = true.
Proof.
  rewrite extract_images_run.
  destruct (os_makedirs w t output_dir); [|done].
  destruct (os_run w _ _); [|done]. simpl.
  destruct (os_listdir w _ _) as [names|] eqn:Hlist; [|done].
  intros [= <- _]. split; [apply sorted_sorted|].
  exists names. split; [done|]. split; [apply sorted_perm|].
  intros image Hin. rewrite sorted_perm in Hin.
  apply list_elem_of_fmap in Hin as (name & -> & Hin).
  apply list_elem_of_filter in Hin as [Hpng Hin]. eauto.
Qed.

Lemma extract_images_sorted_witness :
  StronglySorted String.le
    ["/tmp/ocr_worker_x/frames/subtitle-000001.png";
     "/tmp/ocr_worker_x/frames/subtitle-000002.png"].
Proof.
  refine (proj1 (extract_images_sorted sample_os "a.idx" "/tmp/ocr_worker_x/frames"
                   [] _
                   (extract_images sample_os "a.idx" "/tmp/ocr_worker_x/frames" []).2
                   _)).
  vm_compute. reflexivity.
Defined.

(** ** The recognition loop as a map *)

(** X12. In an environment whose commands do not depend on the history,
    the recognition loop is a map over the images: the text at each
    position is the normalized output of the command for the image at
    that position, or the empty text when that command fails. *)
Theorem ocr_loop_positional w language images texts t texts' t' :
  stateless w ->
  ocr_loop w language images texts t = (Ok texts', t') ->
  texts' = texts ++ map (recognized w language) images.
Proof.
  intros Hst. revert texts t.
  induction images as [|image images IH]; intros texts t.
  - intros [= <- _]. by rewrite app_nil_r.
  - rewrite ocr_loop_cons. cbn [map]. unfold recognized at 1.
    rewrite (Hst _ [] (ocr_command image language)).
    destruct (os_run w [] (ocr_command image language)) as [out|[]];
      try done; intros H%IH; by rewrite H, <- app_assoc.
Qed.

Lemma ocr_loop_positional_witness :
  (ocr_loop failing_os "eng"
     ["/tmp/ocr_worker_x/frames/subtitle-000001.png";
      "/tmp/ocr_worker_x/frames/subtitle-000002.png"] [] []).1
  = Ok ([] ++ map (recognized failing_os "eng")
                ["/tmp/ocr_worker_x/frames/subtitle-000001.png";
                 "/tmp/ocr_worker_x/frames/subtitle-000002.png"]).
Proof.
  assert (Hst : stateless failing_os) by (intros h h' cmd; reflexivity).
  destruct (ocr_loop failing_os "eng"
              ["/tmp/ocr_worker_x/frames/subtitle-000001.png";
               "/tmp/ocr_worker_x/frames/subtitle-000002.png"] [] [])
    as [[texts|e] t'] eqn:Hrun.
  - simpl. f_equal. exact (ocr_loop_positional _ _ _ _ _ _ _ Hst Hrun).
  - vm_compute in Hrun. discriminate Hrun.
Defined.

(** ** The assembler: when it raises, and the shape of its output *)

Lemma build_srt_loop_ok pairs entries index :
  (exists out, build_srt_loop pairs entries index = Ok out)
  <-> Forall (fun p => p.2 = "" \/ formattable p.1) pairs.
Proof.
  revert entries index.
  induction pairs as [|[frame text] rest IH]; intros entries index; simpl.
  - split; [constructor | eauto].
  - rewrite Forall_cons. simpl.
    destruct (String.eqb_spec text "") as [->|Hne].
    + rewrite IH. split; [auto | tauto].
    + unfold formattable.
      destruct (seconds_to_srt_time (start frame)) as [s|e] eqn:Hs; simpl.
      * destruct (seconds_to_srt_time (end_ frame)) as [s'|e] eqn:He; simpl.
        -- destruct (String.eqb s s'); rewrite IH; split; try tauto;
             (intros H; split; [right; eauto | done]).
        -- split; [intros [? [=]] | intros [[? | [_ [? [=]]]] _]; done].
      * split; [intros [? [=]] | intros [[? | [[? [=]] _]] _]; done].
Qed.

(** X13. [build_srt] returns normally exactly when every pair with a
    text has a frame whose two times can be formatted: a frame paired with
    an empty text is never formatted and cannot make it fail.  When it
    fails, it is with the [ValueError] or the [OverflowError] of the
    rounding. *)
Theorem build_srt_defined frames texts :
  ((exists out, build_srt frames texts = Ok out)
   <-> Forall (fun p => p.2 = "" \/ formattable p.1) (zip frames texts))
  /\ (forall e, build_srt frames texts = Raise e ->
                e = ValueError \/ e = OverflowError).
Proof.
  unfold build_srt, srt_entries. split.
  - rewrite <- (build_srt_loop_ok (zip frames texts) [] 1). split.
    + intros [out Hout].
      destruct (build_srt_loop (zip frames texts) [] 1); [eauto | done].
    + intros [entries ->]. simpl. eauto.
  - intros e.
    destruct (build_srt_loop (zip frames texts) [] 1) eqn:Hloop; [done|].
    simpl. intros [= <-]. by apply build_srt_loop_raises in Hloop.
Qed.

(** X14. Whatever the texts are, the output of [build_srt] is either
    empty, exactly when no pair is kept (in particular when one of the
    two sequences is empty), or begins with the number 1 and ends with a
    character that is not whitespace followed by one line feed: there is no
    blank line and no other whitespace at its end. *)
Theorem build_srt_output_shape frames texts out :
  build_srt frames texts = Ok out ->
  (out = "" <-> omap caption_of (zip frames texts) = [])
  /\ (frames = [] \/ texts = [] -> out = "")
  /\ (out <> "" -> (exists rest, out = String "1" rest) /\ ends_line out).
Proof.
  unfold build_srt. intros Hrun.
  destruct (srt_entries frames texts) as [entries|] eqn:Hent; [|done].
  pose proof (srt_entries_spec _ _ _ Hent) as Hspec.
  simpl in Hrun. injection Hrun as <-.
  destruct (omap caption_of (zip frames texts)) as [|cap caps] eqn:Hcaps.
  - subst entries. simpl. done.
  - assert (Hne : cap :: caps <> []) by done.
    destruct (join_entries_head (cap :: caps) Hne) as [rest Hhead].
    assert (Hshape : exists r,
               Py.strip (Py.join newline entries) = String "1" r
               /\ ends_nonspace (String "1" r)).
    { subst entries. rewrite Hhead. unfold Py.strip. simpl Py.lstrip.
      destruct (rstrip_head "1" rest eq_refl) as [r Hr].
      exists r. rewrite Hr. split; [done|].
      destruct (rstrip_ends (String "1" rest)) as [H|H]; rewrite Hr in H; done. }
    destruct Hshape as (r & Hstrip & Hends).
    assert (Hnl : match entries with [] => "" | _ => newline end = newline).
    { subst entries. by destruct cap as [[s e] t]. }
    rewrite Hnl, Hstrip. app_simpl.
    split; [split; done|]. split.
    + intros [-> | ->]; [done|]. by rewrite zip_with_nil_r in Hcaps.
    + intros _. split; [eauto|].
      destruct Hends as (body & c & Hbody & Hc).
      exists body, c. split; [|done]. rewrite <- Hbody. by app_simpl.
Qed.

Lemma build_srt_output_shape_witness :
  build_srt scenario_frames ["  HELLO  "; "WORLD"]
  = Ok (srt_entry 1 "00:00:00,000" "00:00:01,500" "  HELLO")
  /\ ends_line (srt_entry 1 "00:00:00,000" "00:00:01,500" "  HELLO").
Proof.
  assert (Hrun : build_srt scenario_frames ["  HELLO  "; "WORLD"]
                 = Ok (srt_entry 1 "00:00:00,000" "00:00:01,500" "  HELLO"))
    by (vm_compute; reflexivity).
  split; [exact Hrun|].
  apply (build_srt_output_shape _ _ _ Hrun).
  vm_compute. discriminate.
Defined.

(** The serialized captions when every text that is not empty ends with a
    character that is not whitespace. *)
Lemma build_srt_join frames texts out :
  Forall (fun text => text = "" \/ ends_nonspace text) texts ->
  build_srt frames texts = Ok out ->
  out = Py.join newline (number_entries 1 (omap caption_of (zip frames texts))).
Proof.
  intros Htexts Hrun. unfold build_srt in Hrun.
  destruct (srt_entries frames texts) as [entries|] eqn:Hent; [|done].
  pose proof (srt_entries_spec _ _ _ Hent) as Hspec.
  simpl in Hrun. injection Hrun as <-.
  assert (Hends : Forall (fun cap : caption => ends_nonspace cap.2)
                    (omap caption_of (zip frames texts))).
  { apply Forall_forall. intros [[s e] text] Hin.
    apply list_elem_of_omap in Hin as ([frame text'] & Hin & Hcap).
    apply caption_of_Some in Hcap as (-> & Hne & _). simpl in *.
    rewrite Forall_forall in Htexts.
    destruct (Htexts text') as [?|?]; [by apply elem_of_zip_r in Hin | done | done]. }
  destruct (omap caption_of (zip frames texts)) as [|cap caps] eqn:Hcaps.
  - by subst entries.
  - assert (Hne : cap :: caps <> []) by done.
    destruct (join_entries_head (cap :: caps) Hne) as [rest Hhead].
    destruct (join_entries_ends 1 (cap :: caps) Hne Hends)
      as (body & c & Hjoin & Hc).
    subst entries. destruct cap as [[s e] t].
    change (match number_entries 1 ((s, e, t) :: caps) with
            | [] => "" | _ => newline end) with newline.
    rewrite Hhead. apply (strip_block _ _ body c); [done | done |].
    by rewrite <- Hhead.
Qed.

(** X15. The texts that the recognition loop adds are normalized; so
    for any frames the captions assembled from the texts of a loop that
    started with none are exactly the serialization of the design document
    for the pairs that are kept. *)
Theorem recognized_texts_assembled w language images t texts t' frames out :
  ocr_loop w language images [] t = (Ok texts, t') ->
  build_srt frames texts = Ok out ->
  Forall normalized texts
  /\ out = spec_serialize 1 (omap caption_of (zip frames texts)).
Proof.
  intros Hloop Hbuild.
  assert (Hnorm : Forall normalized texts)
    by (eapply ocr_loop_normalized; [|exact Hloop]; constructor).
  split; [done|]. rewrite <- join_number_entries. apply build_srt_join; [|done].
  eapply Forall_impl; [exact Hnorm|]. intros text Htext.
  destruct (String.eqb_spec text ""); [by left | right].
  by apply normalized_ends.
Qed.

(** ** Runs of the pipeline, stage by stage *)

Lemma bind_inv {A B} (m : M A) (k : A -> M B) t r t' :
  bind m k t = (r, t') ->
  (exists e, m t = (Raise e, t') /\ r = Raise e)
  \/ (exists a t1, m t = (Ok a, t1) /\ k a t1 = (r, t')).
Proof.
  unfold bind. destruct (m t) as [[a|e] t1].
  - right. eauto.
  - intros [= <- <-]. left. eauto.
Qed.

Lemma confined_run {A} P (m : M A) t r t' :
  confined P m -> m t = (r, t') -> exists evs, t' = t ++ evs /\ Forall P evs.
Proof.
  intros Hm Hrun. destruct (Hm t) as (evs & Ht & Hall).
  rewrite Hrun in Ht. eauto.
Qed.

Lemma confined_extract_images w input_path output_dir :
  confined is_inner (extract_images w input_path output_dir).
Proof. unfold extract_images, run_command, log. cbv zeta. confine. Qed.

Lemma confined_ocr_loop w language images texts :
  confined is_inner (ocr_loop w language images texts).
Proof.
  revert texts. induction images as [|image images IH]; intros texts; simpl.
  - apply confined_ret.
  - apply confined_bind; [|intros text; apply IH].
    apply confined_catch.
    + unfold ocr_image, run_command, log. confine.
    + intros [] k [=]; subst. unfold log. confine.
Qed.

Lemma log_run message t : log message t = (Ok tt, t ++ [EPrint message]).
Proof. reflexivity. Qed.

Lemma zip_take_l {A B} (l : list A) (k : list B) n :
  (length k <= n)%nat -> zip (take n l) k = zip l k.
Proof.
  revert l k. induction n as [|n IH]; intros l k Hlen.
  - destruct k; [|simpl in Hlen; lia]. by rewrite take_0, !zip_with_nil_r.
  - destruct l as [|a l]; [done|]. destruct k as [|b k]; [done|].
    simpl in *. f_equal. apply IH. lia.
Qed.

(** The body of the [with] block: either it does not write, and ends
    with code 2 or with an exception, or its last effect is the writing of
    a content that is not blank, assembled from normalized texts, and it
    ends normally or with the exception of that writing. *)
Lemma recognize_and_write_cases w input_path srt_output language frames tempdir
    t rb tb :
  recognize_and_write w input_path srt_output language frames tempdir t = (rb, tb) ->
  exists evs,
    tb = t ++ evs
    /\ ((Forall is_inner evs /\ (rb = Ok (Some 2) \/ exists e, rb = Raise e))
        \/ exists pre content texts,
             evs = pre ++ [EWrite srt_output content]
             /\ Forall is_inner pre
             /\ Py.strip content <> ""
             /\ Forall normalized texts
             /\ build_srt frames texts = Ok content
             /\ ((rb = Ok None
                  /\ os_write w (t ++ pre) srt_output content = Ok tt)
                 \/ exists e,
                      rb = Raise e
                      /\ os_write w (t ++ pre) srt_output content = Raise e)).
Proof.
  intros Hrun. unfold recognize_and_write in Hrun. cbv zeta in Hrun.
  apply bind_inv in Hrun as [(e & Hex & ->) | (images & t1 & Hex & Hrun)].
  { destruct (confined_run _ _ _ _ _ (confined_extract_images _ _ _) Hex)
      as (evs & -> & Hall).
    exists evs. split; [done|]. left. eauto. }
  destruct (confined_run _ _ _ _ _ (confined_extract_images _ _ _) Hex)
    as (evs1 & -> & Hall1).
  destruct images as [|image images].
  { unfold bind in Hrun. rewrite log_run in Hrun. injection Hrun as <- <-.
    eexists. rewrite <- app_assoc. split; [done|]. left. split; [|by left].
    apply Forall_app. split; [done | by repeat constructor]. }
  apply bind_inv in Hrun as [(e & Hm & ->) | ([] & t2 & Hm & Hrun)].
  { match type of Hm with context [if ?b then _ else _] => destruct b end;
      [rewrite log_run in Hm | unfold ret in Hm]; done. }
  assert (Ht2 : exists evs2, t2 = (t ++ evs1) ++ evs2 /\ Forall is_inner evs2).
  { match type of Hm with context [if ?b then _ else _] => destruct b end;
      [rewrite log_run in Hm | unfold ret in Hm]; injection Hm as <-.
    - eexists. split; [done | by repeat constructor].
    - exists []. by rewrite app_nil_r. }
  destruct Ht2 as (evs2 & -> & Hall2).
  apply bind_inv in Hrun as [(e & Hloop & ->) | (texts & t3 & Hloop & Hrun)].
  { destruct (confined_run _ _ _ _ _ (confined_ocr_loop _ _ _ _) Hloop)
      as (evs3 & -> & Hall3).
    exists (evs1 ++ evs2 ++ evs3). rewrite !app_assoc. split; [done|]. left.
    split; [|eauto]. rewrite <- app_assoc. by rewrite !Forall_app. }
  destruct (confined_run _ _ _ _ _ (confined_ocr_loop _ _ _ _) Hloop)
    as (evs3 & -> & Hall3).
  assert (Hinner : Forall is_inner (evs1 ++ evs2 ++ evs3))
    by (by rewrite !Forall_app).
  assert (Htrace : ((t ++ evs1) ++ evs2) ++ evs3 = t ++ evs1 ++ evs2 ++ evs3)
    by (by rewrite <- !app_assoc).
  rewrite Htrace in *. clear Htrace.
  assert (Hnorm : Forall normalized texts)
    by (eapply ocr_loop_normalized; [|exact Hloop]; constructor).
  assert (Hlen : length texts
                 = Nat.min (length (image :: images)) (length frames)).
  { apply ocr_loop_extends in Hloop as (more & _ & -> & Hlen & _).
    simpl app. rewrite Hlen, length_take. apply Nat.min_l, Nat.le_min_l. }
  apply bind_inv in Hrun as [(e & Hb & ->) | (content & t4 & Hb & Hrun)].
  { unfold lift in Hb. injection Hb as _ <-.
    exists (evs1 ++ evs2 ++ evs3). split; [done|]. left. eauto. }
  unfold lift in Hb. injection Hb as Hb <-.
  assert (Hbuild : build_srt frames texts = Ok content).
  { rewrite <- Hb. unfold build_srt, srt_entries.
    rewrite zip_take_l by (by rewrite Hlen). done. }
  destruct (String.eqb_spec (Py.strip content) "") as [Hblank|Hblank].
  { unfold bind in Hrun. rewrite log_run in Hrun. injection Hrun as <- <-.
    eexists. rewrite <- app_assoc. split; [done|]. left. split; [|by left].
    apply Forall_app. split; [done | by repeat constructor]. }
  unfold bind, perform, ret in Hrun.
  destruct (os_write w _ srt_output content) as [[]|e] eqn:Hw;
    injection Hrun as <- <-;
    exists ((evs1 ++ evs2 ++ evs3) ++ [EWrite srt_output content]);
    (split; [by rewrite <- !app_assoc|]).
  - right. exists (evs1 ++ evs2 ++ evs3), content, texts.
    repeat (split; [done|]). by left.
  - right. exists (evs1 ++ evs2 ++ evs3), content, texts.
    repeat (split; [done|]). right. eauto.
Qed.

Lemma validate_paths_srt w job job_type t srt_output input_path t1 :
  validate_paths w job job_type t = (Ok (srt_output, input_path), t1) ->
  job_get job "srt_output" = Some srt_output.
Proof.
  unfold validate_paths. destruct (job_get job "srt_output") as [srt|]; [|done].
  intros [(e & _ & [=]) | ([] & t2 & _ & Hrun)]%bind_inv.
  destruct (String.eqb job_type "vobsub").
  - destruct (job_get job "idx"); [|done].
    apply bind_inv in Hrun as [(e & _ & [=]) | ([] & t3 & _ & Hrun)].
    apply bind_inv in Hrun as [(e & _ & [=]) | ([] & t4 & _ & Hrun)].
    by injection Hrun as <- _ _.
  - destruct (job_get job "bitmap_file"); [|done].
    apply bind_inv in Hrun as [(e & _ & [=]) | ([] & t3 & _ & Hrun)].
    by injection Hrun as <- _ _.
Qed.

Lemma validate_output_run w path t :
  validate_output w path t
  = if os_isfile w t path then
      match os_getsize w (t ++ [EIsFile path]) path with
      | Ok size =>
          (if size =? 0 then Raise (JobError "Output SRT is empty") else Ok tt,
           t ++ [EIsFile path; EGetsize path])
      | Raise e => (Raise e, t ++ [EIsFile path; EGetsize path])
      end
    else (Raise (JobError "Output SRT not created"), t ++ [EIsFile path]).
Proof.
  unfold validate_output, bind, perform, raise, ret. simpl.
  destruct (os_isfile w t path); simpl; [|done].
  rewrite <- app_assoc. simpl.
  destruct (os_getsize w _ path) as [size|]; [|done].
  by destruct (size =? 0).
Qed.

(** The runs of [process_job]: either the run ends before the temporary
    directory, with validation effects only, or it is a real run that
    creates the directory, runs the body of the [with] block, removes the
    directory and, when the body wrote the file, validates it. *)
Lemma process_job_cases w job dry_run t r t' :
  process_job w job dry_run t = (r, t') ->
  (exists evs,
      t' = t ++ evs /\ Forall is_validation evs
      /\ (r = Ok 2 \/ (r = Ok 0 /\ dry_run = true) \/ exists e, r = Raise e))
  \/ (dry_run = false
      /\ exists pre p,
           Forall is_validation pre
           /\ job_get job "srt_output" = Some (p_srt_output p)
           /\ p_frames p <> []
           /\ match os_mkdtemp w (t ++ pre) "ocr_worker_" with
              | Raise e => r = Raise e /\ t' = t ++ pre ++ [EMkdtemp "ocr_worker_"]
              | Ok tempdir =>
                  exists rb tb,
                    recognize_and_write w (p_input_path p) (p_srt_output p)
                      (p_language p) (p_frames p) tempdir
                      (t ++ pre ++ [EMkdtemp "ocr_worker_"]) = (rb, tb)
                    /\ match rb with
                       | Raise e => r = Raise e /\ t' = tb ++ [ECleanup tempdir]
                       | Ok (Some code) => r = Ok code /\ t' = tb ++ [ECleanup tempdir]
                       | Ok None =>
                           bind (validate_output w (p_srt_output p))
                             (fun _ => bind (log ("[info] Wrote SRT: "
                                                  +:+ p_srt_output p))
                                         (fun _ => ret 0))
                             (tb ++ [ECleanup tempdir]) = (r, t')
                       end
              end).
Proof.
  intros Hrun. unfold process_job in Hrun.
  destruct (negb (member _ SUPPORTED_TYPES)).
  { unfold bind in Hrun. rewrite log_run in Hrun. injection Hrun as <- <-.
    left. eexists. split; [done|]. split; [by repeat constructor | by left]. }
  apply bind_inv in Hrun as [(e & Hv & ->) | ([srt input] & t1 & Hv & Hrun)].
  { destruct (confined_run _ _ _ _ _ (confined_validate_paths _ _ _) Hv)
      as (evs & -> & Hall).
    left. exists evs. split; [done|]. split; [done|]. right. right. eauto. }
  pose proof (validate_paths_srt _ _ _ _ _ _ _ Hv) as Hsrt.
  destruct (confined_run _ _ _ _ _ (confined_validate_paths _ _ _) Hv)
    as (evs1 & -> & Hall1).
  apply bind_inv in Hrun as [(e & Hl & ->) | ([lang avail] & t2 & Hl & Hrun)].
  { destruct (confined_run _ _ _ _ _ (confined_resolve_language _ _) Hl)
      as (evs & -> & Hall).
    left. exists (evs1 ++ evs). rewrite app_assoc. split; [done|].
    split; [by apply Forall_app|]. right. right. eauto. }
  destruct (confined_run _ _ _ _ _ (confined_resolve_language _ _) Hl)
    as (evs2 & -> & Hall2).
  unfold bind at 1 in Hrun. rewrite log_run in Hrun.
  apply bind_inv in Hrun as [(e & Hf & ->) | (frames & t4 & Hf & Hrun)].
  { destruct (confined_run _ _ _ _ _ (confined_load_frames _ _) Hf)
      as (evs & -> & Hall).
    left. eexists. rewrite <- !app_assoc. split; [done|].
    split; [|right; right; eauto].
    rewrite !Forall_app. repeat split; try done. by repeat constructor. }
  destruct (confined_run _ _ _ _ _ (confined_load_frames _ _) Hf)
    as (evs4 & -> & Hall4).
  set (pre := evs1 ++ evs2
              ++ [EPrint ("[info] Using tesseract language: " +:+ lang)] ++ evs4).
  assert (Hpre : Forall is_validation pre).
  { subst pre. rewrite !Forall_app. repeat split; try done. by repeat constructor. }
  assert (Htrace : (((t ++ evs1) ++ evs2)
                    ++ [EPrint ("[info] Using tesseract language: " +:+ lang)])
                   ++ evs4 = t ++ pre)
    by (subst pre; by rewrite <- !app_assoc).
  rewrite Htrace in Hrun. clear Htrace.
  destruct frames as [|frame frames].
  { unfold bind in Hrun. rewrite log_run in Hrun. injection Hrun as <- <-.
    left. eexists. rewrite <- app_assoc. split; [done|].
    split; [|by left]. apply Forall_app. split; [done | by repeat constructor]. }
  destruct dry_run.
  { unfold bind in Hrun. rewrite log_run in Hrun. injection Hrun as <- <-.
    left. eexists. rewrite <- app_assoc. split; [done|].
    split; [|by right; left]. apply Forall_app. split; [done | by repeat constructor]. }
  right. split; [done|].
  exists pre, (mkPrepared srt input lang (frame :: frames)).
  split; [done|]. split; [done|]. split; [done|]. cbn [p_srt_output p_input_path p_language p_frames].
  unfold bind at 1, with_tempdir in Hrun.
  destruct (os_mkdtemp w (t ++ pre) "ocr_worker_") as [tempdir|e].
  - rewrite <- app_assoc in Hrun.
    destruct (recognize_and_write w input srt lang (frame :: frames) tempdir
                (t ++ pre ++ [EMkdtemp "ocr_worker_"])) as [rb tb] eqn:Hbody.
    exists rb, tb. split; [done|].
    destruct rb as [[code|]|e].
    + unfold ret in Hrun. by injection Hrun as <- <-.
    + exact Hrun.
    + by injection Hrun as <- <-.
  - rewrite <- app_assoc in Hrun. by injection Hrun as <- <-.
Qed.

Lemma finish_run w srt_output t2 r t' :
  bind (validate_output w srt_output)
    (fun _ => bind (log ("[info] Wrote SRT: " +:+ srt_output)) (fun _ => ret 0))
    t2 = (r, t') ->
  exists post,
    t' = t2 ++ post /\ Forall is_closing post
    /\ (forall code, r = Ok code ->
          code = 0 /\ post = closing_effects srt_output
          /\ os_isfile w t2 srt_output = true
          /\ exists size,
               os_getsize w (t2 ++ [EIsFile srt_output]) srt_output = Ok size
               /\ size <> 0).
Proof.
  unfold bind at 1. rewrite validate_output_run.
  destruct (os_isfile w t2 srt_output).
  - destruct (os_getsize w _ srt_output) as [size|e].
    + destruct (Z.eqb_spec size 0).
      * intros [= <- <-]. eexists. split; [done|].
        split; [by repeat constructor | done].
      * unfold bind. rewrite log_run. intros [= <- <-].
        exists (closing_effects srt_output). rewrite <- app_assoc.
        split; [done|]. split; [by repeat constructor|].
        intros code [= <-]. eauto 10.
    + intros [= <- <-]. eexists. split; [done|].
      split; [by repeat constructor | done].
  - intros [= <- <-]. eexists. split; [done|].
    split; [by repeat constructor | done].
Qed.

(** The effects of a run, in their order: validation only; or, in a real
    run, validation, the creation of the temporary directory, the effects
    inside it, its removal and the checks of the output file. *)
Lemma process_job_trace w job dry_run t r t' :
  process_job w job dry_run t = (r, t') ->
  exists evs,
    t' = t ++ evs
    /\ ((Forall is_validation evs
         /\ (r = Ok 2 \/ (r = Ok 0 /\ dry_run = true) \/ exists e, r = Raise e))
        \/ (dry_run = false
            /\ exists pre,
                 Forall is_validation pre
                 /\ ((exists e,
                        os_mkdtemp w (t ++ pre) "ocr_worker_" = Raise e
                        /\ r = Raise e
                        /\ evs = pre ++ [EMkdtemp "ocr_worker_"])
                     \/ exists tempdir body post,
                          os_mkdtemp w (t ++ pre) "ocr_worker_" = Ok tempdir
                          /\ evs = pre ++ EMkdtemp "ocr_worker_"
                                     :: body ++ ECleanup tempdir :: post
                          /\ Forall is_closing post
                          /\ ((Forall is_inner body /\ post = []
                               /\ (r = Ok 2 \/ exists e, r = Raise e))
                              \/ exists inner srt_output content texts frames,
                                   body = inner ++ [EWrite srt_output content]
                                   /\ Forall is_inner inner
                                   /\ job_get job "srt_output" = Some srt_output
                                   /\ Py.strip content <> ""
                                   /\ Forall normalized texts
                                   /\ build_srt frames texts = Ok content
                                   /\ (r = Ok 0 \/ exists e, r = Raise e)
                                   /\ (r = Ok 0 ->
                                       post = closing_effects srt_output
                                       /\ os_isfile w
                                            (t ++ pre ++ EMkdtemp "ocr_worker_"
                                               :: body ++ [ECleanup tempdir])
                                            srt_output = true
                                       /\ exists size,
                                            os_getsize w
                                              (t ++ pre ++ EMkdtemp "ocr_worker_"
                                                 :: body
                                                 ++ [ECleanup tempdir;
                                                     EIsFile srt_output])
                                              srt_output = Ok size
                                            /\ size <> 0))))).
Proof.
  intros Hrun.
  apply process_job_cases in Hrun
    as [(evs & -> & Hall & Hr) | (-> & pre & p & Hpre & Hsrt & _ & Hrun)].
  { exists evs. split; [done | by left]. }
  destruct (os_mkdtemp w (t ++ pre) "ocr_worker_") as [tempdir|e] eqn:Hmk.
  2:{ destruct Hrun as [-> ->]. eexists. split; [done|]. right.
      split; [done|]. exists pre. split; [done|]. left. by exists e. }
  destruct Hrun as (rb & tb & Hbody & Hrest).
  apply recognize_and_write_cases in Hbody as (body & -> & Hbody).
  assert (Hshape : forall post,
             ((t ++ pre ++ [EMkdtemp "ocr_worker_"]) ++ body)
             ++ ECleanup tempdir :: post
             = t ++ pre ++ EMkdtemp "ocr_worker_" :: body ++ ECleanup tempdir :: post).
  { intros post. rewrite <- !app_assoc. done. }
  destruct Hbody as [[Hinner Hrb]
                    | (inner & content & texts & -> & Hinner & Hblank & Hnorm
                       & Hbuild & Hrb)].
  - assert (Hr : (r = Ok 2 \/ exists e, r = Raise e)
                 /\ t' = ((t ++ pre ++ [EMkdtemp "ocr_worker_"]) ++ body)
                         ++ [ECleanup tempdir]).
    { destruct Hrb as [-> | [e ->]]; destruct Hrest as [-> ->]; eauto. }
    destruct Hr as [Hr ->].
    eexists. split; [apply (Hshape [])|]. right. split; [done|].
    exists pre. split; [done|]. right. exists tempdir, body, [].
    split; [done|]. split; [done|]. split; [constructor|]. left. auto.
  - assert (Hfin : exists post,
               t' = ((t ++ pre ++ [EMkdtemp "ocr_worker_"])
                     ++ inner ++ [EWrite (p_srt_output p) content])
                    ++ ECleanup tempdir :: post
               /\ Forall is_closing post
               /\ (r = Ok 0 \/ exists e, r = Raise e)
               /\ (r = Ok 0 ->
                   post = closing_effects (p_srt_output p)
                   /\ os_isfile w
                        (((t ++ pre ++ [EMkdtemp "ocr_worker_"])
                          ++ inner ++ [EWrite (p_srt_output p) content])
                         ++ [ECleanup tempdir]) (p_srt_output p) = true
                   /\ exists size,
                        os_getsize w
                          ((((t ++ pre ++ [EMkdtemp "ocr_worker_"])
                             ++ inner ++ [EWrite (p_srt_output p) content])
                            ++ [ECleanup tempdir]) ++ [EIsFile (p_srt_output p)])
                          (p_srt_output p) = Ok size
                        /\ size <> 0)).
    { destruct Hrb as [[-> Hw] | (e & -> & Hw)].
      - apply finish_run in Hrest as (post & -> & Hpost & Hok).
        exists post. split; [by rewrite <- app_assoc|]. split; [done|]. split.
        + destruct r as [code|e]; [|eauto].
          destruct (Hok code eq_refl) as [-> _]. by left.
        + intros ->. destruct (Hok 0 eq_refl) as (_ & -> & Hfile & Hsize). done.
      - destruct Hrest as [-> ->]. exists []. split; [done|].
        split; [constructor|]. split; [eauto | done]. }
    destruct Hfin as (post & -> & Hpost & Hr & Hok).
    eexists. split; [apply (Hshape post)|]. right.
    split; [done|]. exists pre. split; [done|]. right.
    exists tempdir, (inner ++ [EWrite (p_srt_output p) content]), post.
    split; [done|]. split; [done|]. split; [done|]. right.
    exists inner, (p_srt_output p), content, texts, (p_frames p).
    repeat (split; [done|]).
    intros Hr0. destruct (Hok Hr0) as (-> & Hfile & size & Hsize & Hpos).
    split; [done|]. split.
    + etrans; [|exact Hfile]. f_equal. rewrite <- !app_assoc. done.
    + exists size. split; [|done].
      etrans; [|exact Hsize]. f_equal. rewrite <- !app_assoc. done.
Qed.

(** ** The pipeline: codes, writing, temporary directory *)

(** X16. [process_job] returns 0 or 2 and no other code, so the worker
    exits with 0, 1 or 2; in a run that is not a dry run it returns 0 only
    after the output file was written. *)
Theorem process_job_codes w job dry_run t r t' :
  process_job w job dry_run t = (r, t') ->
  (forall code, r = Ok code -> code = 0 \/ code = 2)
  /\ (exit_status r = 0 \/ exit_status r = 1 \/ exit_status r = 2)
  /\ (r = Ok 0 -> dry_run = false ->
      exists path content, EWrite path content ∈ t').
Proof.
  intros Hrun.
  pose proof (process_job_trace _ _ _ _ _ _ Hrun) as (evs & -> & Hcases).
  assert (Hcode : forall code, r = Ok code -> code = 0 \/ code = 2).
  { intros code ->.
    destruct Hcases as [[_ [[= ->] | [[[= ->] _] | [e [=]]]]]
                       | (_ & pre & _ & [(e & _ & [=] & _)
                                        | (d & body & post & _ & _ & _ & Hb)])];
      auto.
    destruct Hb as [(_ & _ & [[= ->] | [e [=]]])
                   | (? & ? & ? & ? & ? & _ & _ & _ & _ & _ & _
                      & [[= ->] | [e [=]]] & _)]; auto. }
  split; [done|]. split.
  - destruct r as [code|e]; simpl; [|auto].
    destruct (Hcode code eq_refl) as [-> | ->]; auto.
  - intros -> ->.
    destruct Hcases as [[_ [[=] | [[_ [=]] | [e [=]]]]]
                       | (_ & pre & _ & [(e & _ & [=] & _)
                                        | (d & body & post & _ & -> & _ & Hb)])].
    destruct Hb as [(_ & _ & [[=] | [e [=]]])
                   | (inner & srt & content & ? & ? & -> & _)].
    exists srt, content. rewrite !elem_of_app, !elem_of_cons, !elem_of_app,
      !elem_of_cons. right. right. right. left. right. by left.
Qed.

Lemma process_job_codes_witness :
  exit_status (process_job failing_os sample_job false []).1 = 0
  \/ exit_status (process_job failing_os sample_job false []).1 = 1
  \/ exit_status (process_job failing_os sample_job false []).1 = 2.
Proof.
  destruct (process_job failing_os sample_job false []) as [r t'] eqn:Hrun.
  exact (proj1 (proj2 (process_job_codes _ _ _ _ _ _ Hrun))).
Defined.

(** X17. [process_job] writes nothing in a dry run and nothing when it
    returns 2; whatever it writes goes to the [srt_output] of the job and
    is a content that is not blank, assembled by [build_srt] from normalized
    texts. *)
Theorem process_job_writes w job dry_run t r evs path content :
  process_job w job dry_run t = (r, t ++ evs) ->
  EWrite path content ∈ evs ->
  dry_run = false
  /\ r <> Ok 2
  /\ job_get job "srt_output" = Some path
  /\ Py.strip content <> ""
  /\ exists frames texts,
       Forall normalized texts /\ build_srt frames texts = Ok content.
Proof.
  intros Hrun Hin.
  pose proof (process_job_trace _ _ _ _ _ _ Hrun) as (evs' & Heq & Hcases).
  apply app_inv_head in Heq. subst evs'.
  assert (Hval : forall l, Forall is_validation l -> EWrite path content ∉ l).
  { intros l Hall Hl. rewrite Forall_forall in Hall. by apply Hall in Hl. }
  assert (Hinn : forall l, Forall is_inner l -> EWrite path content ∉ l).
  { intros l Hall Hl. rewrite Forall_forall in Hall. by apply Hall in Hl. }
  assert (Hclo : forall l, Forall is_closing l -> EWrite path content ∉ l).
  { intros l Hall Hl. rewrite Forall_forall in Hall. by apply Hall in Hl. }
  destruct Hcases as [[Hall _] | (-> & pre & Hpre & Hcases)];
    [by apply Hval in Hin|].
  destruct Hcases as [(e & _ & _ & ->) | (d & body & post & _ & -> & Hpost & Hb)].
  { apply elem_of_app in Hin as [Hin | Hin]; [by apply Hval in Hin|].
    by apply list_elem_of_singleton in Hin. }
  apply elem_of_app in Hin as [Hin | Hin]; [by apply Hval in Hin|].
  apply elem_of_cons in Hin as [? | Hin]; [done|].
  apply elem_of_app in Hin as [Hin | Hin].
  2:{ apply elem_of_cons in Hin as [? | Hin]; [done | by apply Hclo in Hin]. }
  destruct Hb as [(Hinner & _) | (inner & srt & content' & texts & frames & ->
                                  & Hinner & Hsrt & Hblank & Hnorm & Hbuild
                                  & Hr & _)];
    [by apply Hinn in Hin|].
  apply elem_of_app in Hin as [Hin | Hin]; [by apply Hinn in Hin|].
  apply list_elem_of_singleton in Hin. injection Hin as -> ->.
  split; [done|]. split; [by destruct Hr as [-> | [e ->]]|].
  split; [done|]. split; [done|]. eauto.
Qed.

(** X18. The temporary directory is scoped: a run that does not reach it
    has validation effects only; otherwise the creation is the first effect
    after validation, and either it fails, which ends the run, or the
    directory that was created is removed later in the same run, whatever
    happens in between; extraction, recognition and writing take place
    between the two, and after the removal the run only checks the output
    file and prints. *)
Theorem process_job_tempdir_scoped w job dry_run t r t' :
  process_job w job dry_run t = (r, t') ->
  exists evs,
    t' = t ++ evs
    /\ (Forall is_validation evs
        \/ exists pre,
             Forall is_validation pre
             /\ ((exists e,
                    os_mkdtemp w (t ++ pre) "ocr_worker_" = Raise e
                    /\ r = Raise e /\ evs = pre ++ [EMkdtemp "ocr_worker_"])
                 \/ exists tempdir body post,
                      os_mkdtemp w (t ++ pre) "ocr_worker_" = Ok tempdir
                      /\ evs = pre ++ EMkdtemp "ocr_worker_"
                                 :: body ++ ECleanup tempdir :: post
                      /\ Forall (fun e => is_tempdir_effect e = false) body
                      /\ Forall is_closing post)).
Proof.
  intros Hrun.
  pose proof (process_job_trace _ _ _ _ _ _ Hrun) as (evs & -> & Hcases).
  exists evs. split; [done|].
  destruct Hcases as [[Hall _] | (_ & pre & Hpre & Hcases)]; [by left|].
  right. exists pre. split; [done|].
  destruct Hcases as [(e & ? & ? & ?) | (d & body & post & Hmk & -> & Hpost & Hb)];
    [left; eauto|].
  right. exists d, body, post. split; [done|]. split; [done|]. split; [|done].
  assert (Hinn : forall l, Forall is_inner l ->
                           Forall (fun e => is_tempdir_effect e = false) l).
  { intros l Hl. eapply Forall_impl; [exact Hl|]. by intros []. }
  destruct Hb as [(Hinner & _) | (inner & ? & ? & ? & ? & -> & Hinner & _)];
    [by apply Hinn|].
  apply Forall_app. split; [by apply Hinn | by repeat constructor].
Qed.

(** X19. A run that is not a dry run and returns 0 has created the
    temporary directory, written a content that is not blank to the
    [srt_output] of the job as the last effect inside it, removed it, found
    the output file in place and not of size 0, and printed the final
    line. *)
Theorem process_job_success w job t t' :
  process_job w job false t = (Ok 0, t') ->
  exists pre tempdir inner srt_output content,
    t' = t ++ pre ++ EMkdtemp "ocr_worker_"
           :: (inner ++ [EWrite srt_output content])
           ++ ECleanup tempdir :: closing_effects srt_output
    /\ job_get job "srt_output" = Some srt_output
    /\ Forall is_validation pre /\ Forall is_inner inner
    /\ Py.strip content <> ""
    /\ os_isfile w (t ++ pre ++ EMkdtemp "ocr_worker_"
                      :: (inner ++ [EWrite srt_output content])
                      ++ [ECleanup tempdir]) srt_output = true
    /\ exists size,
         os_getsize w (t ++ pre ++ EMkdtemp "ocr_worker_"
                         :: (inner ++ [EWrite srt_output content])
                         ++ [ECleanup tempdir; EIsFile srt_output]) srt_output
         = Ok size
         /\ size <> 0.
Proof.
  intros Hrun.
  pose proof (process_job_trace _ _ _ _ _ _ Hrun) as (evs & -> & Hcases).
  destruct Hcases as [[_ [[=] | [[_ [=]] | [e [=]]]]]
                     | (_ & pre & Hpre & [(e & _ & [=] & _)
                                         | (d & body & post & _ & -> & _ & Hb)])].
  destruct Hb as [(_ & _ & [[=] | [e [=]]])
                 | (inner & srt & content & texts & frames & -> & Hinner & Hsrt
                    & Hblank & _ & _ & _ & Hok)].
  destruct (Hok eq_refl) as (-> & Hfile & Hsize).
  exists pre, d, inner, srt, content. done.
Qed.

(** ** The pipeline: missing keys *)

(** X20. For a job of a supported type, a missing or empty [srt_output]
    ends the run with [JobError] before anything is asked of the file
    system; once the directory of the output passed its checks, a missing
    [idx] of a vobsub job, or a missing [bitmap_file] of a pgs job, ends it
    with the [JobError] of that key before any input is looked at. *)
Theorem process_job_missing_key w job dry_run t :
  let job_type := Py.strip (Py.lower (default "" (job !! "type"))) in
  job_type ∈ SUPPORTED_TYPES ->
  (job_get job "srt_output" = None ->
   process_job w job dry_run t = (Raise (JobError "Missing srt_output in job"), t))
  /\ (forall srt_output t1,
        job_get job "srt_output" = Some srt_output ->
        ensure_writable w srt_output t = (Ok tt, t1) ->
        (job_type = "vobsub" -> job_get job "idx" = None ->
         process_job w job dry_run t
         = (Raise (JobError "Missing idx path for vobsub job"), t1))
        /\ (job_type = "pgs" -> job_get job "bitmap_file" = None ->
            process_job w job dry_run t
            = (Raise (JobError "Missing bitmap_file path for pgs job"), t1))).
Proof.
  intros job_type Htype. apply member_spec in Htype.
  assert (Hjob : forall e t1,
             validate_paths w job job_type t = (Raise e, t1) ->
             process_job w job dry_run t = (Raise e, t1)).
  { intros e t1 Hv. unfold process_job. fold job_type. rewrite Htype.
    unfold negb, bind. by rewrite Hv. }
  split.
  - intros Hsrt. apply Hjob. unfold validate_paths. by rewrite Hsrt.
  - intros srt t1 Hsrt Hw. split.
    + intros Hjt Hidx. apply Hjob. unfold validate_paths, bind.
      by rewrite Hsrt, Hw, Hjt, Hidx.
    + intros Hjt Hbmp. apply Hjob. unfold validate_paths, bind.
      by rewrite Hsrt, Hw, Hjt, Hbmp.
Qed.

Lemma process_job_missing_key_witness :
  process_job sample_os {["type" := "PGS"]} false []
  = (Raise (JobError "Missing srt_output in job"), []).
Proof.
  refine (proj1 (process_job_missing_key sample_os {["type" := "PGS"]} false [] _) _).
  - apply member_spec. reflexivity.
  - reflexivity.
Defined.

(** ** The directory of the output *)

Lemma upto_last_sep_lacks name : lacks "/" name = true -> upto_last_sep name = "".
Proof.
  induction name as [|c name IH]; simpl; [done|].
  intros [Hc Hname]%andb_prop. rewrite IH by done.
  apply negb_true_iff in Hc. by rewrite Hc.
Qed.

Lemma upto_last_sep_app dir name :
  lacks "/" name = true ->
  upto_last_sep (dir +:+ "/" +:+ name) = dir +:+ "/".
Proof.
  intros Hname. induction dir as [|c dir IH].
  - change (upto_last_sep (String "/" name) = "/").
    cbn [upto_last_sep]. by rewrite upto_last_sep_lacks.
  - change (upto_last_sep (String c (dir +:+ "/" +:+ name))
            = String c (dir +:+ "/")).
    cbn [upto_last_sep]. rewrite IH. by destruct dir.
Qed.

Lemma rstrip_sep_snoc body c :
  Ascii.eqb c "/" = false ->
  rstrip_sep ((body +:+ String c "") +:+ "/") = body +:+ String c "".
Proof.
  intros Hc. induction body as [|a body IH].
  - change (rstrip_sep (String c "/") = String c ""). simpl. by rewrite Hc.
  - change (rstrip_sep (String a ((body +:+ String c "") +:+ "/"))
            = String a (body +:+ String c "")).
    cbn [rstrip_sep]. rewrite IH. by destruct body.
Qed.

Lemma all_chars_snoc body c :
  Ascii.eqb c "/" = false ->
  all_chars "/" ((body +:+ String c "") +:+ "/") = false.
Proof.
  intros Hc. induction body as [|a body IH].
  - change (all_chars "/" (String c "/") = false). simpl. by rewrite Hc.
  - change (all_chars "/" (String a ((body +:+ String c "") +:+ "/")) = false).
    cbn [all_chars]. rewrite IH. apply andb_false_r.
Qed.

Lemma dirname_bare name : lacks "/" name = true -> dirname name = "".
Proof. intros H. unfold dirname. by rewrite upto_last_sep_lacks. Qed.

Lemma dirname_joined body c name :
  Ascii.eqb c "/" = false -> lacks "/" name = true ->
  dirname ((body +:+ String c "") +:+ "/" +:+ name) = body +:+ String c "".
Proof.
  intros Hc Hname. unfold dirname. rewrite upto_last_sep_app by done.
  rewrite all_chars_snoc, rstrip_sep_snoc by done.
  destruct body; done.
Qed.

Lemma ensure_writable_run w path t :
  let directory := if String.eqb (dirname path) "" then "." else dirname path in
  ensure_writable w path t
  = if os_isdir w t directory then
      if os_access w (t ++ [EIsDir directory]) directory true
      then (Ok tt, t ++ [EIsDir directory; EAccess directory true])
      else (Raise (JobError ("Output directory not writable: " +:+ directory)),
            t ++ [EIsDir directory; EAccess directory true])
    else (Raise (JobError ("Output directory does not exist: " +:+ directory)),
          t ++ [EIsDir directory]).
Proof.
  intros directory. unfold ensure_writable. fold directory.
  unfold bind, perform, raise, ret. simpl.
  destruct (os_isdir w t directory); simpl; [|done].
  rewrite <- app_assoc. simpl.
  by destruct (os_access w _ directory true).
Qed.

(** X21. [ensure_writable] checks the directory part of the output path:
    the current directory ["."] for a bare file name, the directory [dir]
    for [dir/name]; it accepts the path exactly when that directory exists
    and is writable, and asks about writing only when it exists. *)
Theorem ensure_writable_directory w body c name t :
  Ascii.eqb c "/" = false -> lacks "/" name = true ->
  let check directory :=
    if os_isdir w t directory then
      if os_access w (t ++ [EIsDir directory]) directory true
      then (Ok tt, t ++ [EIsDir directory; EAccess directory true])
      else (Raise (JobError ("Output directory not writable: " +:+ directory)),
            t ++ [EIsDir directory; EAccess directory true])
    else (Raise (JobError ("Output directory does not exist: " +:+ directory)),
          t ++ [EIsDir directory]) in
  ensure_writable w name t = check "."
  /\ ensure_writable w ((body +:+ String c "") +:+ "/" +:+ name) t
     = check (body +:+ String c "").
Proof.
  intros Hc Hname check. split.
  - rewrite ensure_writable_run, dirname_bare by done. reflexivity.
  - rewrite ensure_writable_run, dirname_joined by done.
    replace (String.eqb (body +:+ String c "") "") with false; [done|].
    symmetry. apply String.eqb_neq. by destruct body.
Qed.

Lemma ensure_writable_directory_witness :
  ensure_writable sample_os "out.srt" [] = (Ok tt, [EIsDir "."; EAccess "." true])
  /\ ensure_writable sample_os "/data/out.srt" []
     = (Ok tt, [EIsDir "/data"; EAccess "/data" true]).
Proof.
  exact (ensure_writable_directory sample_os "/dat" "a" "out.srt" []
           eq_refl eq_refl).
Defined.

(** ** Language tags: case and surrounding whitespace *)

Lemma lstrip_app_space ws s : all_space ws = true -> Py.lstrip (ws +:+ s) = Py.lstrip s.
Proof.
  induction ws as [|c ws IH]; app_simpl; simpl; [done|].
  intros [Hc Hws]%andb_prop. rewrite Hc. by apply IH.
Qed.

Lemma rstrip_all_space ws : all_space ws = true -> Py.rstrip ws = "".
Proof.
  induction ws as [|c ws IH]; simpl; [done|].
  intros [Hc Hws]%andb_prop. by rewrite IH, Hc.
Qed.

Lemma rstrip_app_space s ws : all_space ws = true -> Py.rstrip (s +:+ ws) = Py.rstrip s.
Proof.
  intros Hws. induction s as [|c s IH]; app_simpl; simpl.
  - by apply rstrip_all_space.
  - by rewrite IH.
Qed.

Lemma lstrip_app_nonspace s ws :
  Py.lstrip s <> "" -> Py.lstrip (s +:+ ws) = Py.lstrip s +:+ ws.
Proof.
  induction s as [|c s IH]; app_simpl; simpl; [done|].
  destruct (Py.isspace c); [apply IH | done].
Qed.

Lemma strip_padded ws1 s ws2 :
  all_space ws1 = true -> all_space ws2 = true ->
  Py.strip (ws1 +:+ s +:+ ws2) = Py.strip s.
Proof.
  intros H1 H2. unfold Py.strip. rewrite lstrip_app_space by done.
  destruct (String.eqb_spec (Py.lstrip s) "") as [Hs|Hs].
  - assert (Hall : all_space s = true).
    { clear -Hs. induction s as [|c s IH]; simpl in *; [done|].
      destruct (Py.isspace c); [by apply IH | done]. }
    rewrite Hs. rewrite lstrip_app_space by done. simpl.
    clear -H2. induction ws2 as [|c ws IH]; simpl in *; [done|].
    apply andb_prop in H2 as [Hc Hws]. rewrite Hc. by apply IH.
  - rewrite lstrip_app_nonspace by done. by apply rstrip_app_space.
Qed.

Lemma lower_app a b : Py.lower (a +:+ b) = Py.lower a +:+ Py.lower b.
Proof. induction a as [|c a IH]; app_simpl; simpl; [done|]. by rewrite IH. Qed.

(** X22. Tags are normalized whatever their case and the whitespace
    around them: a tag that is not empty is normalized as its lower-case
    form is, and as it is with whitespace put before and after it. *)
Theorem normalize_language_insensitive tag ws1 ws2 :
  tag <> "" -> all_space ws1 = true -> all_space ws2 = true ->
  normalize_language (Some (Py.lower tag)) = normalize_language (Some tag)
  /\ normalize_language (Some (ws1 +:+ tag +:+ ws2)) = normalize_language (Some tag).
Proof.
  intros Hne H1 H2. unfold normalize_language.
  destruct (String.eqb_spec tag ""); [done|]. split.
  - destruct (String.eqb_spec (Py.lower tag) "") as [Hl|Hl];
      [by destruct tag|].
    by rewrite lower_idempotent.
  - destruct (String.eqb_spec (ws1 +:+ tag +:+ ws2) "") as [Hp|Hp].
    { destruct ws1; [|done]. by destruct tag. }
    rewrite !lower_app, strip_padded by (by rewrite all_space_lower).
    done.
Qed.

Lemma normalize_language_insensitive_witness :
  normalize_language (Some "   Japanese ") = normalize_language (Some "Japanese").
Proof.
  exact (proj2 (normalize_language_insensitive "Japanese" "   " " "
                  ltac:(discriminate) eq_refl eq_refl)).
Defined.

(** ** The companion file of a vobsub job *)

Lemma rfind_from_lacks c i s last :
  lacks c s = true -> rfind_from c i s last = last.
Proof.
  revert i. induction s as [|a s IH]; intros i; simpl; [done|].
  intros [Ha Hs]%andb_prop. apply negb_true_iff in Ha.
  rewrite Ha. by apply IH.
Qed.

Lemma rfind_from_app c i a b last :
  rfind_from c i (a +:+ b) last
  = rfind_from c (i + Z.of_nat (String.length a)) b (rfind_from c i a last).
Proof.
  revert i last. induction a as [|x a IH]; intros i last; app_simpl.
  - simpl. by rewrite Z.add_0_r.
  - cbn [rfind_from String.length]. rewrite IH. f_equal. lia.
Qed.

Lemma lacks_app c a b : lacks c (a +:+ b) = lacks c a && lacks c b.
Proof.
  induction a as [|x a IH]; app_simpl; [done|].
  cbn [lacks]. by rewrite IH, andb_assoc.
Qed.

Lemma substring_skip a s m :
  substring (String.length a) m (a +:+ s) = substring 0 m s.
Proof. induction a as [|x a IH]; app_simpl; simpl; [done | apply IH]. Qed.

Lemma substring_prefix b rest :
  substring 0 (String.length b) (b +:+ rest) = b.
Proof.
  induction b as [|x b IH]; app_simpl; simpl.
  - by destruct rest.
  - by rewrite IH.
Qed.

(** The index of the last separator of a directory prefix. *)
Lemma rfind_sep_prefix pre :
  pre = "" \/ (exists pre', pre = pre' +:+ "/") ->
  rfind "/" pre = Z.of_nat (String.length pre) - 1.
Proof.
  unfold rfind. intros [-> | [pre' ->]]; [done|].
  rewrite rfind_from_app, length_append. simpl. lia.
Qed.

(** For a path made of a directory prefix, a file name, a dot and an
    extension, [os.path.splitext] cuts at that dot unless the file name is
    made of dots only; a path without any dot is left whole. *)
Lemma splitext_root_extension pre base ext :
  pre = "" \/ (exists pre', pre = pre' +:+ "/") ->
  lacks "/" base = true -> lacks "." ext = true -> lacks "/" ext = true ->
  splitext_root (pre +:+ base +:+ "." +:+ ext)
  = (if all_chars "." base then pre +:+ base +:+ "." +:+ ext else pre +:+ base)
  /\ (lacks "." (pre +:+ base) = true ->
      splitext_root (pre +:+ base) = pre +:+ base).
Proof.
  intros Hpre Hbase Hext1 Hext2. split.
  - unfold splitext_root.
    assert (Hsep : rfind "/" (pre +:+ base +:+ "." +:+ ext)
                   = Z.of_nat (String.length pre) - 1).
    { unfold rfind. rewrite rfind_from_app.
      rewrite (rfind_from_lacks "/" _ (base +:+ "." +:+ ext)).
      - by apply rfind_sep_prefix.
      - rewrite !lacks_app, Hbase, Hext2. done. }
    assert (Hdot : rfind "." (pre +:+ base +:+ "." +:+ ext)
                   = Z.of_nat (String.length pre + String.length base)).
    { unfold rfind. rewrite <- append_assoc, rfind_from_app.
      change ("." +:+ ext) with (String "." ext). cbn [rfind_from].
      rewrite (Ascii.eqb_refl "."), rfind_from_lacks by done.
      rewrite length_append. lia. }
    rewrite Hsep, Hdot.
    replace (Z.to_nat (Z.of_nat (String.length pre) - 1 + 1))
      with (String.length pre) by lia.
    replace (Z.to_nat (Z.of_nat (String.length pre + String.length base)
                       - (Z.of_nat (String.length pre) - 1) - 1))
      with (String.length base) by lia.
    rewrite Nat2Z.id, substring_skip, substring_prefix.
    replace (Z.of_nat (String.length pre) - 1
             <? Z.of_nat (String.length pre + String.length base))
      with true by (symmetry; apply Z.ltb_lt; lia).
    destruct (all_chars "." base); simpl; [done|].
    rewrite <- length_append, <- append_assoc. apply substring_prefix.
  - intros Hnodot. unfold splitext_root.
    replace (rfind "." (pre +:+ base)) with (-1)
      by (unfold rfind; by rewrite rfind_from_lacks).
    assert (Hsep : -1 <= rfind "/" (pre +:+ base)).
    { unfold rfind. rewrite rfind_from_app, (rfind_from_lacks "/" _ base) by done.
      pose proof (rfind_sep_prefix pre Hpre) as H. unfold rfind in H. lia. }
    replace (rfind "/" (pre +:+ base) <? -1) with false
      by (symmetry; apply Z.ltb_ge; lia).
    done.
Qed.

(** X23. For a vobsub job whose [idx] is a directory prefix, a file name
    that is not made of dots only and the extension ".idx", the paths are
    checked in this order: the directory of the output, the index file,
    then the companion, which is the same path with ".sub" in place of
    ".idx". *)
Theorem vobsub_companion_checked w job pre base srt_output t :
  pre = "" \/ (exists pre', pre = pre' +:+ "/") ->
  lacks "/" base = true -> all_chars "." base = false ->
  job_get job "srt_output" = Some srt_output ->
  job_get job "idx" = Some (pre +:+ base +:+ ".idx") ->
  validate_paths w job "vobsub" t
  = bind (ensure_writable w srt_output)
      (fun _ => bind (ensure_readable w (pre +:+ base +:+ ".idx"))
         (fun _ => bind (ensure_readable w (pre +:+ base +:+ ".sub"))
            (fun _ => ret (srt_output, pre +:+ base +:+ ".idx")))) t.
Proof.
  intros Hpre Hbase Hdots Hsrt Hidx. unfold validate_paths.
  rewrite Hsrt. change (String.eqb "vobsub" "vobsub") with true. cbv iota.
  rewrite Hidx. cbv zeta.
  destruct (splitext_root_extension pre base "idx" Hpre Hbase eq_refl eq_refl)
    as [Hcut _].
  rewrite Hdots in Hcut.
  change (pre +:+ base +:+ ".idx") with (pre +:+ base +:+ "." +:+ "idx").
  rewrite Hcut. by rewrite append_assoc.
Qed.

Lemma vobsub_companion_checked_witness :
  (validate_paths sample_os sample_job "vobsub" []).2
  = [EIsDir "."; EAccess "." true; EIsFile "a.idx"; EAccess "a.idx" false;
     EIsFile "a.sub"; EAccess "a.sub" false].
Proof.
  rewrite (vobsub_companion_checked sample_os sample_job "" "a" "out.srt" []
             (or_introl eq_refl) eq_refl eq_refl eq_refl eq_refl).
  reflexivity.
Defined.

(** ** Runs of the sample job *)

Lemma resolve_language_failure_witness :
  (resolve_language bare_os (Some "fra") []).2
  = command_effects ["tesseract"; "--list-langs"] ++ [fallback_warning "fra"].
Proof.
  destruct (resolve_language_failure bare_os (Some "fra") []
              (JobError "tesseract language data missing (eng not installed)")
              (resolve_language bare_os (Some "fra") []).2 eq_refl)
    as [(Hq & _) | (_ & Ht & _)].
  - vm_compute in Hq. discriminate Hq.
  - exact Ht.
Defined.

Lemma recognized_texts_assembled_witness :
  Forall normalized ["HELLO WORLD"; "HELLO WORLD"]
  /\ build_srt scenario_frames ["HELLO WORLD"; "HELLO WORLD"]
     = Ok (spec_serialize 1 [("00:00:00,000", "00:00:01,500", "HELLO WORLD")]).
Proof.
  assert (Hloop : ocr_loop sample_os "eng" ["a.png"; "b.png"] [] []
                  = (Ok ["HELLO WORLD"; "HELLO WORLD"],
                     (ocr_loop sample_os "eng" ["a.png"; "b.png"] [] []).2))
    by (vm_compute; reflexivity).
  assert (Hbuild : build_srt scenario_frames ["HELLO WORLD"; "HELLO WORLD"]
                   = Ok (spec_serialize 1
                           [("00:00:00,000", "00:00:01,500", "HELLO WORLD")]))
    by (vm_compute; reflexivity).
  split; [|exact Hbuild].
  exact (proj1 (recognized_texts_assembled _ _ _ _ _ _ _ _ Hloop Hbuild)).
Defined.

Lemma sample_run :
  process_job sample_os sample_job false []
  = (Ok 0, [] ++ (process_job sample_os sample_job false []).2).
Proof. vm_compute. reflexivity. Qed.

Lemma process_job_writes_witness :
  job_get sample_job "srt_output" = Some "out.srt"
  /\ Py.strip (srt_entry 1 "00:00:00,000" "00:00:01,500" "HELLO WORLD") <> "".
Proof.
  assert (Hin : EWrite "out.srt"
                  (srt_entry 1 "00:00:00,000" "00:00:01,500" "HELLO WORLD")
                ∈ (process_job sample_os sample_job false []).2).
  { vm_compute.
    repeat first [apply list_elem_of_here | apply list_elem_of_further]. }
  destruct (process_job_writes sample_os sample_job false [] (Ok 0) _ _ _
              sample_run Hin) as (_ & _ & Hsrt & Hblank & _).
  split; [exact Hsrt | exact Hblank].
Defined.

Lemma process_job_tempdir_scoped_witness :
  exists evs, [] ++ (process_job sample_os sample_job false []).2 = [] ++ evs.
Proof.
  destruct (process_job_tempdir_scoped sample_os sample_job false [] (Ok 0) _
              sample_run) as (evs & Heq & _).
  exists evs. exact Heq.
Defined.

Lemma process_job_success_witness :
  exists pre tempdir inner srt_output content,
    [] ++ (process_job sample_os sample_job false []).2
    = [] ++ pre ++ EMkdtemp "ocr_worker_"
         :: (inner ++ [EWrite srt_output content])
         ++ ECleanup tempdir :: closing_effects srt_output.
Proof.
  destruct (process_job_success sample_os sample_job [] _ sample_run)
    as (pre & tempdir & inner & srt & content & Heq & _).
  exists pre, tempdir, inner, srt, content. exact Heq.
Defined.
